(** * Network isolation rules of the QEMU engine (package [network])

    A shallow embedding of [ipTableRules], the function that synthesises the
    iptables commands confining a virtual machine's tap device, together with
    the properties its specification states about it. *)

From Stdlib Require Import List String Ascii Strings.Byte NArith Arith Lia Bool DecimalString.
Import ListNotations.
Open Scope string_scope.
Open Scope list_scope.

(** Go's [+] on strings. *)
Notation "a +++ b" := (String.append a b) (at level 60, right associativity).

(** ** Go's [net.IP], as far as [ipTableRules] uses it *)
Module Net.

(** A [net.IP] is a byte slice. *)
Definition IP := list byte.

(** The non-nil results of [To4] always have four bytes; they are kept as a
    quadruple so that [String4] is total. *)
Definition IPv4 := (byte * byte * byte * byte)%type.

Definition isZeros (p : list byte) : bool := forallb (Byte.eqb x00) p.

(** [func (ip IP) To4() IP]: a 4-byte address is returned as it is, a
    16-byte address with the [::ffff:] prefix yields its last four bytes,
    anything else is [nil]. *)
Definition To4 (ip : IP) : option IPv4 :=
  match ip with
  | [a; b; c; d] => Some (a, b, c, d)
  | _ =>
      if (List.length ip =? 16)%nat
         && isZeros (firstn 10 ip)
         && Byte.eqb (nth 10 ip x00) xff
         && Byte.eqb (nth 11 ip x00) xff
      then
        match skipn 12 ip with
        | [a; b; c; d] => Some (a, b, c, d)
        | _ => None
        end
      else None
  end.

(** [uitoa] on one byte: decimal, no leading zeros. *)
Definition uitoa (b : byte) : string :=
  NilZero.string_of_uint (N.to_uint (Byte.to_N b)).

(** [String()] on an address in 4-byte form: dotted decimal. *)
Definition String4 (ip : IPv4) : string :=
  let '(a, b, c, d) := ip in
  uitoa a +++ "." +++ uitoa b +++ "." +++ uitoa c +++ "." +++ uitoa d.

End Net.

(** ** The [openvpn.VPN] collaborator *)

(** Modelled from the spec: the type [openvpn.VPN] lives in a package that is
    not among the listed sources.  The specification describes a VPN
    connection as an entity exposing the name of its own network attachment
    and the list of addresses routed through it; [ipTableRules] reads it
    through [DeviceName()] and [Routes()] only. *)
Record VPN := mkVPN {
  DeviceName : string;
  Routes : list Net.IP
}.

(** ** Constants *)

(** Maximum time to wait for the xtables lock when using iptables. *)
Definition xtableLockWait : string := "3".

(** Modelled from the spec: the constant [metaDataIP] is declared in another
    file of the package.  The specification calls it the fixed well-known
    address of the metadata service, and the comment above [ipTableRules]
    gives it as 169.254.169.254. *)
Definition metaDataIP : string := "169.254.169.254".

(** ** Commands and the [prefixCommands] helper *)

Definition Command := list string.

(** The closure [prefixCommands]: the loop appends [prefix ++ rule] to the
    accumulator for each rule in turn. *)
Definition prefixCommands (prefix : list string) (rules : list (list string))
  : list Command :=
  fold_left (fun cmds rule => cmds ++ [prefix ++ rule]) rules [].

(** The two address values derived from the prefix (lines 22 and 23). *)
Definition subnet (ipPrefix : string) : string := ipPrefix +++ ".0/24".
Definition gateway (ipPrefix : string) : string := ipPrefix +++ ".1".

(** [ruleAction] and [chainAction] (lines 32 to 37). *)
Definition ruleAction (delete : bool) : string := if delete then "-D" else "-A".
Definition chainAction (delete : bool) : string := if delete then "-X" else "-N".

(** ** The rule groups, each a local variable of [ipTableRules] *)

(** Create/delete custom chains for this tap device. *)
Definition chains (tapDevice chainAction : string) : list Command :=
  prefixCommands ["iptables"; "-w"; xtableLockWait; chainAction] [
    ["input_" +++ tapDevice];
    ["output_" +++ tapDevice];
    ["fwd_input_" +++ tapDevice];
    ["fwd_output_" +++ tapDevice]
  ].

(** Rules for jumping to custom chains for this tap device. *)
Definition rules (tapDevice ruleAction : string) : list Command :=
  prefixCommands ["iptables"; "-w"; xtableLockWait; ruleAction] [
    ["INPUT"; "-i"; tapDevice; "-j"; "input_" +++ tapDevice];
    ["OUTPUT"; "-o"; tapDevice; "-j"; "output_" +++ tapDevice];
    ["FORWARD"; "-i"; tapDevice; "-j"; "fwd_input_" +++ tapDevice];
    ["FORWARD"; "-o"; tapDevice; "-j"; "fwd_output_" +++ tapDevice]
  ].

(** Rules for nat from this subnet (the local variable [nat]). *)
Definition natRules (subnet ruleAction : string) : list Command :=
  prefixCommands ["iptables"; "-w"; xtableLockWait; "-t"; "nat"; ruleAction] [
    ["POSTROUTING"; "-o"; "eth0"; "-s"; subnet; "-j"; "MASQUERADE"]
  ].

(** Rules for filtering INPUT from this tap device. *)
Definition inputRules (tapDevice subnet gateway ruleAction : string)
  : list Command :=
  prefixCommands
    ["iptables"; "-w"; xtableLockWait; ruleAction; "input_" +++ tapDevice] [
    ["-p"; "tcp"; "-s"; subnet; "-d"; metaDataIP; "-m"; "tcp"; "--dport"; "80";
     "-m"; "state"; "--state"; "NEW,ESTABLISHED"; "-j"; "ACCEPT"];
    ["-p"; "tcp"; "-s"; subnet; "-d"; gateway; "-m"; "tcp"; "--dport"; "53";
     "-m"; "state"; "--state"; "NEW,ESTABLISHED"; "-j"; "ACCEPT"];
    ["-p"; "udp"; "-s"; subnet; "-d"; gateway; "-m"; "udp"; "--dport"; "53";
     "-m"; "state"; "--state"; "NEW,ESTABLISHED"; "-j"; "ACCEPT"];
    ["-s"; "0.0.0.0"; "-d"; "255.255.255.255"; "-p"; "udp"; "-m"; "udp";
     "--sport"; "68"; "--dport"; "67"; "-j"; "ACCEPT"];
    ["-s"; subnet; "-d"; gateway; "-p"; "udp"; "-m"; "udp";
     "--sport"; "68"; "--dport"; "67"; "-j"; "ACCEPT"];
    ["-s"; subnet; "-d"; metaDataIP; "-j"; "REJECT";
     "--reject-with"; "icmp-port-unreachable"];
    ["-j"; "REJECT"; "--reject-with"; "icmp-host-unreachable"]
  ].

(** Rules for filtering OUTPUT to this tap device. *)
Definition outputRules (tapDevice subnet gateway ruleAction : string)
  : list Command :=
  prefixCommands
    ["iptables"; "-w"; xtableLockWait; ruleAction; "output_" +++ tapDevice] [
    ["-p"; "tcp"; "-s"; metaDataIP; "-d"; subnet; "-m"; "tcp"; "--sport"; "80";
     "-m"; "state"; "--state"; "ESTABLISHED"; "-j"; "ACCEPT"];
    ["-p"; "udp"; "-s"; gateway; "-d"; subnet; "-m"; "udp"; "--sport"; "53";
     "-m"; "state"; "--state"; "ESTABLISHED"; "-j"; "ACCEPT"];
    ["-p"; "tcp"; "-s"; gateway; "-d"; subnet; "-m"; "tcp"; "--sport"; "53";
     "-m"; "state"; "--state"; "ESTABLISHED"; "-j"; "ACCEPT"];
    ["-p"; "udp"; "-s"; gateway; "-m"; "udp"; "--sport"; "67"; "--dport"; "68";
     "-j"; "ACCEPT"];
    ["-j"; "REJECT"; "--reject-with"; "icmp-net-prohibited"]
  ].

(** ** The VPN loop (lines 89 to 109) *)

(** What [debug] is called with: the route that was skipped. *)
Inductive Diagnostic :=
| SkippingIPv6Route (ip : Net.IP).

(** The variables the loop updates: the two rule accumulators and the debug
    log, the only state outside the function that it touches. *)
Record LoopState := mkLoopState {
  forwardVPNInputRules : list (list string);
  forwardVPNOutputRules : list (list string);
  debugLog : list Diagnostic
}.

(** One iteration of the inner loop, for route [ip] of [vpn]. *)
Definition routeStep (subnet : string) (vpn : VPN) (st : LoopState)
  (ip : Net.IP) : LoopState :=
  match Net.To4 ip with
  | None =>
      (* Skip IPv6 for now *)
      mkLoopState (forwardVPNInputRules st) (forwardVPNOutputRules st)
                  (debugLog st ++ [SkippingIPv6Route ip])
  | Some ipv4 =>
      let route := Net.String4 ipv4 in
      mkLoopState
        (forwardVPNInputRules st ++
           [["-d"; route; "-o"; DeviceName vpn; "-s"; subnet; "-j"; "ACCEPT"]])
        (forwardVPNOutputRules st ++
           [["-s"; route; "-i"; DeviceName vpn; "-d"; subnet;
             "-m"; "state"; "--state"; "RELATED,ESTABLISHED"; "-j"; "ACCEPT"]])
        (debugLog st)
  end.

(** The outer loop over the connections, in the order supplied. *)
Definition vpnLoop (subnet : string) (vpns : list VPN) (st : LoopState)
  : LoopState :=
  fold_left (fun st vpn => fold_left (routeStep subnet vpn) (Routes vpn) st)
            vpns st.

(** Rules for filtering FORWARD from this tap device. *)
Definition forwardInputRules (tapDevice subnet ruleAction : string)
  (forwardVPNInputRules : list (list string)) : list Command :=
  prefixCommands
    ["iptables"; "-w"; xtableLockWait; ruleAction; "fwd_input_" +++ tapDevice]
    (forwardVPNInputRules ++ [
      ["-d"; "10.0.0.0/8"; "-j"; "REJECT"; "--reject-with"; "icmp-net-unreachable"];
      ["-d"; "172.16.0.0/12"; "-j"; "REJECT"; "--reject-with"; "icmp-net-unreachable"];
      ["-d"; "169.254.0.0/16"; "-j"; "REJECT"; "--reject-with"; "icmp-net-unreachable"];
      ["-d"; "192.168.0.0/16"; "-j"; "REJECT"; "--reject-with"; "icmp-net-unreachable"];
      ["-o"; "eth0"; "-s"; subnet; "-j"; "ACCEPT"];
      ["-o"; tapDevice; "-s"; subnet; "-j"; "ACCEPT"];
      ["-j"; "REJECT"; "--reject-with"; "icmp-net-prohibited"]
    ]).

(** Rules for filtering FORWARD to this tap device. *)
Definition forwardOutputRules (tapDevice subnet ruleAction : string)
  (forwardVPNOutputRules : list (list string)) : list Command :=
  prefixCommands
    ["iptables"; "-w"; xtableLockWait; ruleAction; "fwd_output_" +++ tapDevice]
    (forwardVPNOutputRules ++ [
      ["-s"; "10.0.0.0/8"; "-j"; "DROP"];
      ["-s"; "172.16.0.0/12"; "-j"; "DROP"];
      ["-s"; "169.254.0.0/16"; "-j"; "DROP"];
      ["-s"; "192.168.0.0/16"; "-j"; "DROP"];
      ["-i"; "eth0"; "-d"; subnet; "-m"; "state"; "--state"; "RELATED,ESTABLISHED";
       "-j"; "ACCEPT"];
      ["-i"; tapDevice; "-s"; subnet; "-j"; "ACCEPT"];
      ["-j"; "DROP"]
    ]).

(** ** [ipTableRules] *)

(** The body of [ipTableRules] below lines 22 and 23, as a function of the
    two derived addresses and of the debug log it starts from. *)
Definition ruleSetFor (tapDevice subnet gateway : string) (vpns : list VPN)
  (delete : bool) (log : list Diagnostic) : list Command * list Diagnostic :=
  let ruleAction := ruleAction delete in
  let chainAction := chainAction delete in
  let chains := chains tapDevice chainAction in
  let rules := rules tapDevice ruleAction in
  let nat := natRules subnet ruleAction in
  let inputRules := inputRules tapDevice subnet gateway ruleAction in
  let outputRules := outputRules tapDevice subnet gateway ruleAction in
  let st := vpnLoop subnet vpns (mkLoopState [] [] log) in
  let forwardInputRules :=
    forwardInputRules tapDevice subnet ruleAction (forwardVPNInputRules st) in
  let forwardOutputRules :=
    forwardOutputRules tapDevice subnet ruleAction (forwardVPNOutputRules st) in
  let cmds : list Command := [] in
  let cmds :=
    if negb delete then
      let cmds := cmds ++ nat in
      let cmds := cmds ++ chains in
      let cmds := cmds ++ rules in
      let cmds := cmds ++ inputRules in
      let cmds := cmds ++ outputRules in
      let cmds := cmds ++ forwardOutputRules in
      let cmds := cmds ++ forwardInputRules in
      cmds
    else
      (* Reverse order when deleting, because we can't delete chains that are
         referenced by a rule *)
      let cmds := cmds ++ forwardInputRules in
      let cmds := cmds ++ forwardOutputRules in
      let cmds := cmds ++ outputRules in
      let cmds := cmds ++ inputRules in
      let cmds := cmds ++ rules in
      let cmds := cmds ++ chains in
      let cmds := cmds ++ nat in
      cmds
  in
  (cmds, debugLog st).

(** [ipTableRules] with the debug log made explicit. *)
Definition ipTableRulesLogged (tapDevice ipPrefix : string) (vpns : list VPN)
  (delete : bool) (log : list Diagnostic) : list Command * list Diagnostic :=
  ruleSetFor tapDevice (subnet ipPrefix) (gateway ipPrefix) vpns delete log.

(** The value [ipTableRules] returns. *)
Definition ipTableRules (tapDevice ipPrefix : string) (vpns : list VPN)
  (delete : bool) : list Command :=
  fst (ipTableRulesLogged tapDevice ipPrefix vpns delete []).

(** ** Reading a command back

    The vocabulary the specification uses for commands: the action verb, the
    chain a command acts on, and the match body. *)

Record Parsed := mkParsed {
  table : option string;   (* the argument of [-t], when present *)
  verb : string;           (* [-A], [-D], [-N] or [-X] *)
  target : string;         (* the chain the verb acts on *)
  body : list string       (* the match and the terminal action *)
}.

Definition parse (cmd : Command) : option Parsed :=
  match cmd with
  | tool :: w :: _ :: t :: more =>
      if (tool =? "iptables") && (w =? "-w") then
        if t =? "-t" then
          match more with
          | tbl :: v :: c :: b => Some (mkParsed (Some tbl) v c b)
          | _ => None
          end
        else
          match more with
          | c :: b => Some (mkParsed None t c b)
          | [] => None
          end
      else None
  | _ => None
  end.

(** Append becomes delete, create-chain becomes destroy-chain. *)
Definition flipVerb (v : string) : string :=
  if v =? "-A" then "-D" else if v =? "-N" then "-X" else v.

(** The command with its action verb flipped and all other tokens kept. *)
Definition flipCommand (cmd : Command) : Command :=
  match cmd with
  | tool :: w :: secs :: t :: more =>
      if t =? "-t" then
        match more with
        | tbl :: v :: rest => tool :: w :: secs :: t :: tbl :: flipVerb v :: rest
        | _ => cmd
        end
      else tool :: w :: secs :: flipVerb t :: more
  | _ => cmd
  end.

(** The seven groups in the order the install branch appends them. *)
Definition groups (tapDevice ipPrefix : string) (vpns : list VPN)
  (delete : bool) : list (list Command) :=
  let st := vpnLoop (subnet ipPrefix) vpns (mkLoopState [] [] []) in
  [ natRules (subnet ipPrefix) (ruleAction delete);
    chains tapDevice (chainAction delete);
    rules tapDevice (ruleAction delete);
    inputRules tapDevice (subnet ipPrefix) (gateway ipPrefix) (ruleAction delete);
    outputRules tapDevice (subnet ipPrefix) (gateway ipPrefix) (ruleAction delete);
    forwardOutputRules tapDevice (subnet ipPrefix) (ruleAction delete)
                       (forwardVPNOutputRules st);
    forwardInputRules tapDevice (subnet ipPrefix) (ruleAction delete)
                      (forwardVPNInputRules st) ].

Definition verbOf (cmd : Command) : option string := option_map verb (parse cmd).

(** The four chains that belong to a device. *)
Definition deviceChains (tapDevice : string) : list string :=
  [ "input_" +++ tapDevice; "output_" +++ tapDevice;
    "fwd_input_" +++ tapDevice; "fwd_output_" +++ tapDevice ].

(** The chain a rule is appended to. *)
Definition appendTarget (cmd : Command) : option string :=
  match parse cmd with
  | Some p => if verb p =? "-A" then Some (target p) else None
  | None => None
  end.

(** Every token that directly follows a [-j]. *)
Fixpoint jumpTargets (tokens : list string) : list string :=
  match tokens with
  | a :: tl =>
      match tl with
      | b :: _ => if a =? "-j" then b :: jumpTargets tl else jumpTargets tl
      | [] => []
      end
  | [] => []
  end.

Definition references (cmd : Command) (chain : string) : Prop :=
  appendTarget cmd = Some chain \/ In chain (jumpTargets cmd).

Definition createsChain (chain : string) : Command :=
  ["iptables"; "-w"; xtableLockWait; "-N"; chain].

(** The commands of a RuleSet that act on the rules of [chain]. *)
Definition groupOf (chain : string) (rs : list Command) : list Command :=
  filter (fun cmd =>
            match parse cmd with
            | Some p => ((verb p =? "-A") || (verb p =? "-D")) && (target p =? chain)
            | None => false
            end) rs.

Definition isChainCreation (cmd : Command) : bool :=
  match parse cmd with
  | Some p => verb p =? "-N"
  | None => false
  end.

(** A rule appended to one of the host's global hooks. *)
Definition isJumpWiring (cmd : Command) : bool :=
  match parse cmd with
  | Some p =>
      (verb p =? "-A")
      && match table p with None => true | Some _ => false end
      && ((target p =? "INPUT") || (target p =? "OUTPUT") || (target p =? "FORWARD"))
  | None => false
  end.

(** The chains a RuleSet creates or destroys. *)
Definition managedChains (rs : list Command) : list string :=
  flat_map (fun cmd =>
              match parse cmd with
              | Some p =>
                  if (verb p =? "-N") || (verb p =? "-X") then [target p] else []
              | None => []
              end) rs.

(** The IPv4-representable routes of a connection, in dotted form. *)
Definition ipv4Routes (vpn : VPN) : list Net.IPv4 :=
  flat_map (fun ip => match Net.To4 ip with Some r => [r] | None => [] end)
           (Routes vpn).

Definition ipv4RouteCount (vpns : list VPN) : nat :=
  list_sum (map (fun vpn => List.length (ipv4Routes vpn)) vpns).

(** The routes [To4] rejects. *)
Definition skippedRoutes (vpn : VPN) : list Net.IP :=
  filter (fun ip => match Net.To4 ip with Some _ => false | None => true end)
         (Routes vpn).

Definition vpnInputRule (subnet : string) (vpn : VPN) (r : Net.IPv4)
  : list string :=
  ["-d"; Net.String4 r; "-o"; DeviceName vpn; "-s"; subnet; "-j"; "ACCEPT"].

Definition vpnOutputRule (subnet : string) (vpn : VPN) (r : Net.IPv4)
  : list string :=
  ["-s"; Net.String4 r; "-i"; DeviceName vpn; "-d"; subnet;
   "-m"; "state"; "--state"; "RELATED,ESTABLISHED"; "-j"; "ACCEPT"].

(** [substringb s t]: [s] occurs in [t]. *)
Fixpoint substringb (s t : string) : bool :=
  String.prefix s t
  || match t with
     | EmptyString => false
     | String _ t' => substringb s t'
     end.

(** Some token of the command contains [id]. *)
Definition mentions (id : string) (cmd : Command) : bool :=
  existsb (substringb id) cmd.

Fixpoint occursIn (c : ascii) (s : string) : bool :=
  match s with
  | EmptyString => false
  | String x s' => Ascii.eqb c x || occursIn c s'
  end.

(** No character of [s] occurs in [t]. *)
Fixpoint noCommonChar (s t : string) : bool :=
  match s with
  | EmptyString => true
  | String c s' => negb (occursIn c t) && noCommonChar s' t
  end.

(** The command at position [i] depends on the value of the subnet, resp.
    of the gateway: changing that value alone changes the command. *)
Definition referencesSubnet (tapDevice gateway : string) (vpns : list VPN)
  (delete : bool) (i : nat) : Prop :=
  exists s1 s2,
    nth_error (fst (ruleSetFor tapDevice s1 gateway vpns delete [])) i
    <> nth_error (fst (ruleSetFor tapDevice s2 gateway vpns delete [])) i.

Definition referencesGateway (tapDevice subnet : string) (vpns : list VPN)
  (delete : bool) (i : nat) : Prop :=
  exists g1 g2,
    nth_error (fst (ruleSetFor tapDevice subnet g1 vpns delete [])) i
    <> nth_error (fst (ruleSetFor tapDevice subnet g2 vpns delete [])) i.

(** A family of RuleSets indexed by one string [x]: the length does not
    depend on [x], and at each position the command either does not depend
    on [x] or has [x] among its tokens. *)
Definition Faithful (F : string -> list Command) : Prop :=
  (forall x y, List.length (F x) = List.length (F y)) /\
  forall i,
    (forall x y, nth_error (F x) i = nth_error (F y) i) \/
    (forall x c, nth_error (F x) i = Some c -> In x c).

(** What the VPN loop adds to its three variables, connection by connection. *)
Definition vpnInputRulesOf (sn : string) (vpns : list VPN) : list (list string) :=
  flat_map (fun vpn => map (vpnInputRule sn vpn) (ipv4Routes vpn)) vpns.

Definition vpnOutputRulesOf (sn : string) (vpns : list VPN) : list (list string) :=
  flat_map (fun vpn => map (vpnOutputRule sn vpn) (ipv4Routes vpn)) vpns.

Definition diagnosticsOf (vpns : list VPN) : list Diagnostic :=
  flat_map (fun vpn => map SkippingIPv6Route (skippedRoutes vpn)) vpns.

(** A command whose verb is an append or a create-chain and which
    [flipCommand] changes at that one token only. *)
Definition VerbOnly (cmd : Command) : Prop :=
  exists pre v post,
    cmd = pre ++ v :: post
    /\ (v = "-A" \/ v = "-N")
    /\ flipCommand cmd = pre ++ flipVerb v :: post.

(** The lock-wait argument, right after the name of the tool. *)
Definition hasLockWait (cmd : Command) : Prop :=
  exists rest, cmd = "iptables" :: "-w" :: xtableLockWait :: rest.

(** The install scenario of the specification. *)
Definition scenarioInstall : list Command :=
  ipTableRules "tap3" "192.168.50" [] false.

(** A connection with one IPv4 route, 10.8.0.0, and one IPv6 route,
    2001:db8::1. *)
Definition vpnMixed : VPN :=
  mkVPN "tun0"
        [ [x0a; x08; x00; x00];
          [x20; x01; x0d; xb8; x00; x00; x00; x00;
           x00; x00; x00; x00; x00; x00; x00; x01] ].

(** Every character of [s] occurs in [t]. *)
Fixpoint allIn (s t : string) : bool :=
  match s with
  | EmptyString => true
  | String c s' => occursIn c t && allIn s' t
  end.

(** The characters of a dotted-decimal address. *)
Definition dottedChars : string := "0123456789.".

(** No token of the command contains [id]. *)
Definition cleanOf (id : string) (cmd : Command) : Prop :=
  Forall (fun tok => substringb id tok = false) cmd.

(** A connection whose attachment is named like a tap device. *)
Definition vpnNamedTapB : VPN := mkVPN "tapB" [[x0a; x08; x00; x00]].

(** ** Further vocabulary for reading RuleSets *)

Definition destroysChain (chain : string) : Command :=
  ["iptables"; "-w"; xtableLockWait; "-X"; chain].

(** The chain a rule is deleted from. *)
Definition deleteTarget (cmd : Command) : option string :=
  match parse cmd with
  | Some p => if verb p =? "-D" then Some (target p) else None
  | None => None
  end.

Definition referencesOnDelete (cmd : Command) (chain : string) : Prop :=
  deleteTarget cmd = Some chain \/ In chain (jumpTargets cmd).

(** The option [opt] occurs in the command with argument [val]. *)
Definition hasOption (opt val : string) (cmd : Command) : Prop :=
  exists pre post, cmd = pre ++ opt :: val :: post.

(** The terminal action of the command is ACCEPT. *)
Definition endsWithAccept (cmd : Command) : bool :=
  match rev cmd with
  | a :: j :: _ => (a =? "ACCEPT") && (j =? "-j")
  | _ => false
  end.

(** The command names a table with [-t]. *)
Definition selectsTable (cmd : Command) : bool :=
  match parse cmd with
  | Some p => match table p with Some _ => true | None => false end
  | None => false
  end.

(** The 16-byte form [::ffff:a.b.c.d] of an IPv4 address. *)
Definition mappedIPv4 (a b c d : byte) : Net.IP :=
  repeat x00 10 ++ [xff; xff; a; b; c; d].

(** * The task context (package [runtime], taskcontext.go)

    One [TaskContext] object is shared by the context and its controller
    (the controller embeds the pointer), so both act on the same state.  The
    calls are taken one at a time.  What lies outside the package (the log
    stream, the file system, the queue client, the formatting of values) is
    kept abstract: an outside call appears in the trace of a run and its
    result is an argument of the call. *)
Module Runtime.

Definition TaskStatus := string.

Definition Aborted : TaskStatus := "Aborted".
Definition Cancelled : TaskStatus := "Cancelled".
Definition Succeeded : TaskStatus := "Succeeded".
Definition Failed : TaskStatus := "Failed".
Definition Errored : TaskStatus := "Errored".
Definition Claimed : TaskStatus := "Claimed".
Definition Reclaimed : TaskStatus := "Reclaimed".

(** The errors the methods return: the package's own [ErrLogNotClosed],
    [context.Canceled], and whatever an outside call reports. *)
Inductive Error :=
| ErrLogNotClosed
| ContextCanceled
| Outside (msg : string).

(** A [chan struct{}] nobody sends on: nil, open or closed. *)
Inductive Chan := NilChan | OpenChan | ClosedChan.

(** The calls that leave the package. *)
Inductive OutsideCall :=
| StreamWrite (line : string)
| StreamClose
| StreamRemove
| OsOpen (path : string).

Section TaskContext.

Variables Time Queue Other File : Type.

(** How [fmt] prints an operand that is not a string. *)
Variable formatOther : Other -> string.

Record TaskInfo := mkTaskInfo {
  TaskID : string;
  RunID : nat;
  Created : Time;
  Deadline : Time;
  Expires : Time
}.

Record TaskContext := mkTaskContext {
  info : TaskInfo;
  logLocation : string;
  logClosed : bool;
  queue : option Queue;
  status : TaskStatus;
  done : Chan
}.

(** An operand of [Log]: a string, or anything else. *)
Inductive Operand :=
| Str (s : string)
| Val (o : Other).

Definition format (a : Operand) : string :=
  match a with
  | Str s => s
  | Val o => formatOther o
  end.

(** [fmt.Fprintln]: the operands separated by spaces, then a newline. *)
Definition Sprintln (a : list Operand) : string :=
  String.concat " " (map format a) +++ String "010"%char EmptyString.

(** [NewTaskContext]; [newErr] is what [stream.New] reports. *)
Definition NewTaskContext (tempLogFile : string) (task : TaskInfo)
  (newErr : option Error) : Error + TaskContext :=
  match newErr with
  | Some err => inl err
  | None => inr (mkTaskContext task tempLogFile false None "" OpenChan)
  end.

(** [CloseLog]; [closeErr] is what [logStream.Close] reports if called. *)
Definition CloseLog (c : TaskContext) (closeErr : option Error)
  : TaskContext * option Error * list OutsideCall :=
  if logClosed c then (c, None, [])
  else (mkTaskContext (info c) (logLocation c) true (queue c) (status c) (done c),
        closeErr, [StreamClose]).

(** [Dispose] returns what [logStream.Remove] returns.  That call does not
    return while the log stream is still open; once [CloseLog] has been
    called, [removed] says whether it returns and with which error.  [None]:
    [Dispose] does not return. *)
Definition Dispose (c : TaskContext) (removed : option (option Error))
  : option (TaskContext * option Error * list OutsideCall) :=
  if logClosed c then
    match removed with
    | Some removeErr => Some (c, removeErr, [StreamRemove])
    | None => None
    end
  else None.

Definition SetQueueClient (c : TaskContext) (client : Queue) : TaskContext :=
  mkTaskContext (info c) (logLocation c) (logClosed c) (Some client)
                (status c) (done c).

(** The method [Queue]. *)
Definition GetQueue (c : TaskContext) : option Queue := queue c.

Definition Done (c : TaskContext) : Chan := done c.

Definition Err (c : TaskContext) : option Error :=
  if (status c =? Aborted) || (status c =? Cancelled)
  then Some ContextCanceled else None.

(** The [select] of [Abort] and [Cancel]: a receive on a closed channel is
    ready, on an open or nil channel it is not and the default branch closes
    the channel; closing a nil channel panics ([None]). *)
Definition closeOnce (ch : Chan) : option Chan :=
  match ch with
  | ClosedChan => Some ClosedChan
  | OpenChan => Some ClosedChan
  | NilChan => None
  end.

Definition setStatus (c : TaskContext) (st : TaskStatus) : option TaskContext :=
  match closeOnce (done c) with
  | Some ch =>
      Some (mkTaskContext (info c) (logLocation c) (logClosed c) (queue c) st ch)
  | None => None
  end.

Definition Abort (c : TaskContext) : option TaskContext := setStatus c Aborted.

Definition Cancel (c : TaskContext) : option TaskContext := setStatus c Cancelled.

Definition IsAborted (c : TaskContext) : bool := status c =? Aborted.

Definition IsCancelled (c : TaskContext) : bool := status c =? Cancelled.

(** [log]: the prefix is put in front of the operands; the error of the
    write is dropped. *)
Definition log (c : TaskContext) (prefix : string) (a : list Operand)
  : TaskContext * list OutsideCall :=
  (c, [StreamWrite (Sprintln (Str prefix :: a))]).

Definition Log (c : TaskContext) (a : list Operand) :=
  log c "[taskcluster] " a.

Definition LogError (c : TaskContext) (a : list Operand) :=
  log c "[taskcluster:error] " a.

(** [ExtractLog]; [opened] is what [os.Open] returns if called. *)
Definition ExtractLog (c : TaskContext) (opened : Error + File)
  : (Error + File) * list OutsideCall :=
  if negb (logClosed c) then (inl ErrLogNotClosed, [])
  else (opened, [OsOpen (logLocation c)]).

(** One call on the shared object, with the results of the outside calls it
    may make. *)
Inductive Call :=
| CallCloseLog (closeErr : option Error)
| CallDispose (removed : option (option Error))
| CallSetQueueClient (client : Queue)
| CallAbort
| CallCancel
| CallLog (a : list Operand)
| CallLogError (a : list Operand)
| CallExtractLog (opened : Error + File).

(** The state after the call and the outside calls made; [None]: the call
    does not return, because it panics ([Abort] and [Cancel] on a nil
    channel) or because it waits forever ([Dispose]). *)
Definition step (c : TaskContext) (call : Call)
  : option (TaskContext * list OutsideCall) :=
  match call with
  | CallCloseLog e => let '(c', _, out) := CloseLog c e in Some (c', out)
  | CallDispose r =>
      match Dispose c r with
      | Some (c', _, out) => Some (c', out)
      | None => None
      end
  | CallSetQueueClient q => Some (SetQueueClient c q, [])
  | CallAbort => option_map (fun c' => (c', [])) (Abort c)
  | CallCancel => option_map (fun c' => (c', [])) (Cancel c)
  | CallLog a => Some (Log c a)
  | CallLogError a => Some (LogError c a)
  | CallExtractLog o => Some (c, snd (ExtractLog c o))
  end.

Fixpoint run (c : TaskContext) (calls : list Call)
  : option (TaskContext * list OutsideCall) :=
  match calls with
  | [] => Some (c, [])
  | call :: rest =>
      match step c call with
      | Some (c', out) =>
          match run c' rest with
          | Some (c'', out') => Some (c'', out ++ out')
          | None => None
          end
      | None => None
      end
  end.

Definition isDispose (call : Call) : bool :=
  match call with
  | CallDispose _ => true
  | _ => false
  end.

Definition isCloseLog (call : Call) : bool :=
  match call with
  | CallCloseLog _ => true
  | _ => false
  end.

Definition isStreamClose (o : OutsideCall) : bool :=
  match o with
  | StreamClose => true
  | _ => false
  end.

(** The channel and the status agree: open and no status yet, or closed
    and aborted or cancelled. *)
Definition Live (c : TaskContext) : Prop :=
  (done c = OpenChan /\ status c = "")
  \/ (done c = ClosedChan /\ (status c = Aborted \/ status c = Cancelled)).

(** The status the most recent [Abort] or [Cancel] of the calls leaves,
    [st] if there is none. *)
Fixpoint lastVerdict (calls : list Call) (st : TaskStatus) : TaskStatus :=
  match calls with
  | [] => st
  | CallAbort :: rest => lastVerdict rest Aborted
  | CallCancel :: rest => lastVerdict rest Cancelled
  | _ :: rest => lastVerdict rest st
  end.


End TaskContext.

Arguments mkTaskInfo {Time} _ _ _ _ _.
Arguments mkTaskContext {Time Queue} _ _ _ _ _ _.
Arguments info {Time Queue} _.
Arguments logLocation {Time Queue} _.
Arguments logClosed {Time Queue} _.
Arguments queue {Time Queue} _.
Arguments status {Time Queue} _.
Arguments done {Time Queue} _.
Arguments NewTaskContext {Time Queue} _ _ _.
Arguments CloseLog {Time Queue} _ _.
Arguments Dispose {Time Queue} _ _.
Arguments SetQueueClient {Time Queue} _ _.
Arguments GetQueue {Time Queue} _.
Arguments Done {Time Queue} _.
Arguments Err {Time Queue} _.
Arguments Abort {Time Queue} _.
Arguments Cancel {Time Queue} _.
Arguments IsAborted {Time Queue} _.
Arguments IsCancelled {Time Queue} _.
Arguments Log {Time Queue Other} _ _ _.
Arguments LogError {Time Queue Other} _ _ _.
Arguments ExtractLog {Time Queue File} _ _.
Arguments step {Time Queue Other File} _ _ _.
Arguments run {Time Queue Other File} _ _ _.
Arguments isCloseLog {Queue Other File} _.
Arguments isDispose {Queue Other File} _.
Arguments Live {Time Queue} _.
Arguments lastVerdict {Queue Other File} _ _.
Arguments Str {Other} _.
Arguments Val {Other} _.
Arguments CallCloseLog {Queue Other File} _.
Arguments CallDispose {Queue Other File} _.
Arguments CallSetQueueClient {Queue Other File} _.
Arguments CallAbort {Queue Other File}.
Arguments CallCancel {Queue Other File}.
Arguments CallLog {Queue Other File} _.
Arguments CallLogError {Queue Other File} _.
Arguments CallExtractLog {Queue Other File} _.

End Runtime.

(** A run of the task context: two log lines, a [CloseLog] whose stream
    close fails, an [Abort], a second [CloseLog], a [Cancel] and an
    [ExtractLog]. *)
Definition exampleFormat (n : nat) : string :=
  NilZero.string_of_uint (Nat.to_uint n).

Definition exampleTask : Runtime.TaskInfo unit :=
  Runtime.mkTaskInfo "abc" 1 tt tt tt.

Definition exampleContext : Runtime.TaskContext unit string :=
  Runtime.mkTaskContext exampleTask "/tmp/abc.log" false None ""
                        Runtime.OpenChan.

(** The same context after an [Abort]. *)
Definition exampleAborted : Runtime.TaskContext unit string :=
  Runtime.mkTaskContext exampleTask "/tmp/abc.log" false None Runtime.Aborted
                        Runtime.ClosedChan.

Definition exampleCalls : list (@Runtime.Call string nat string) :=
  [ Runtime.CallLog [Runtime.Str "run"; Runtime.Val 1];
    Runtime.CallLogError [];
    Runtime.CallCloseLog (Some (Runtime.Outside "disk full"));
    Runtime.CallAbort;
    Runtime.CallCloseLog None;
    Runtime.CallCancel;
    Runtime.CallExtractLog (inr "file") ].

(** ** Chains a RuleSet refers to *)

(** The connection with the routes [To4] rejects left out. *)
Definition ipv4Only (vpn : VPN) : VPN :=
  mkVPN (DeviceName vpn)
        (filter (fun ip => match Net.To4 ip with Some _ => true | None => false end)
                (Routes vpn)).

(** The body of a rule read as iptables reads it: every option used by
    [ipTableRules] takes one argument. *)
Fixpoint optionPairs (tokens : list string) : list (string * string) :=
  match tokens with
  | opt :: arg :: rest => (opt, arg) :: optionPairs rest
  | _ => []
  end.

(** The chain the command creates, destroys, appends to or deletes from,
    and the arguments of its [-j] options. *)
Definition chainRefsOf (cmd : Command) : list string :=
  match parse cmd with
  | Some q =>
      target q
      :: map snd (filter (fun oa => fst oa =? "-j") (optionPairs (body q)))
  | None => []
  end.

Definition chainRefs (rs : list Command) : list string :=
  flat_map chainRefsOf rs.

(** The chains and targets iptables provides. *)
Definition builtinNames : list string :=
  ["INPUT"; "OUTPUT"; "FORWARD"; "POSTROUTING";
   "ACCEPT"; "REJECT"; "DROP"; "MASQUERADE"].

(** The chains a RuleSet refers to that are not built in. *)
Definition userChains (rs : list Command) : list string :=
  filter (fun c => negb (existsb (String.eqb c) builtinNames)) (chainRefs rs).

(** Every chain the command refers to is built in or belongs to [d]. *)
Definition knownRefs (d : string) (cmd : Command) : Prop :=
  Forall (fun c => In c builtinNames \/ In c (deviceChains d)) (chainRefsOf cmd).

(** * Properties *)

(** ** The loops as list functions *)

Lemma prefixCommands_map (prefix : list string) (rows : list (list string)) :
  prefixCommands prefix rows = map (app prefix) rows.
Proof.
  unfold prefixCommands.
  enough (H : forall acc,
             fold_left (fun cmds rule => cmds ++ [prefix ++ rule]) rows acc
             = acc ++ map (app prefix) rows) by apply (H []).
  induction rows as [|r rows IH]; intros acc; simpl.
  - now rewrite app_nil_r.
  - rewrite IH, <- app_assoc. reflexivity.
Qed.

Lemma prefixCommands_length (prefix : list string) (rows : list (list string)) :
  List.length (prefixCommands prefix rows) = List.length rows.
Proof. rewrite prefixCommands_map. apply length_map. Qed.

Section VpnLoop.

Variable sn : string.

Lemma routeLoop_spec (vpn : VPN) (routes : list Net.IP) (st : LoopState) :
  fold_left (routeStep sn vpn) routes st
  = mkLoopState
      (forwardVPNInputRules st ++
         map (vpnInputRule sn vpn) (ipv4Routes (mkVPN (DeviceName vpn) routes)))
      (forwardVPNOutputRules st ++
         map (vpnOutputRule sn vpn) (ipv4Routes (mkVPN (DeviceName vpn) routes)))
      (debugLog st ++
         map SkippingIPv6Route (skippedRoutes (mkVPN (DeviceName vpn) routes))).
Proof.
  revert st. induction routes as [|ip routes IH]; intros st.
  - destruct st; simpl. now rewrite !app_nil_r.
  - simpl fold_left. rewrite IH. clear IH.
    unfold routeStep, ipv4Routes, skippedRoutes. simpl.
    destruct (Net.To4 ip) as [r|]; simpl; rewrite <- ?app_assoc; reflexivity.
Qed.

Lemma vpnLoop_spec (vpns : list VPN) (st : LoopState) :
  vpnLoop sn vpns st
  = mkLoopState (forwardVPNInputRules st ++ vpnInputRulesOf sn vpns)
                (forwardVPNOutputRules st ++ vpnOutputRulesOf sn vpns)
                (debugLog st ++ diagnosticsOf vpns).
Proof.
  unfold vpnLoop. revert st.
  induction vpns as [|vpn vpns IH]; intros st.
  - destruct st; simpl. now rewrite !app_nil_r.
  - simpl fold_left. rewrite IH, routeLoop_spec. clear IH.
    destruct vpn as [dev routes]. simpl.
    unfold vpnInputRulesOf, vpnOutputRulesOf, diagnosticsOf. simpl.
    rewrite <- !app_assoc. reflexivity.
Qed.

Lemma vpnInputRulesOf_length (vpns : list VPN) :
  List.length (vpnInputRulesOf sn vpns) = ipv4RouteCount vpns.
Proof.
  unfold vpnInputRulesOf, ipv4RouteCount.
  induction vpns as [|vpn vpns IH]; simpl; [reflexivity|].
  now rewrite length_app, length_map, IH.
Qed.

Lemma vpnOutputRulesOf_length (vpns : list VPN) :
  List.length (vpnOutputRulesOf sn vpns) = ipv4RouteCount vpns.
Proof.
  unfold vpnOutputRulesOf, ipv4RouteCount.
  induction vpns as [|vpn vpns IH]; simpl; [reflexivity|].
  now rewrite length_app, length_map, IH.
Qed.

End VpnLoop.

(** ** The shape of the returned RuleSet *)

Lemma vpnLoop_fresh (sn : string) (vpns : list VPN) (log : list Diagnostic) :
  vpnLoop sn vpns (mkLoopState [] [] log)
  = mkLoopState (vpnInputRulesOf sn vpns) (vpnOutputRulesOf sn vpns)
                (log ++ diagnosticsOf vpns).
Proof. rewrite vpnLoop_spec. reflexivity. Qed.

Lemma ruleSetFor_install (d sn gw : string) (vpns : list VPN)
  (log : list Diagnostic) :
  fst (ruleSetFor d sn gw vpns false log)
  = natRules sn "-A" ++ chains d "-N" ++ rules d "-A"
    ++ inputRules d sn gw "-A" ++ outputRules d sn gw "-A"
    ++ forwardOutputRules d sn "-A" (vpnOutputRulesOf sn vpns)
    ++ forwardInputRules d sn "-A" (vpnInputRulesOf sn vpns).
Proof.
  unfold ruleSetFor. rewrite vpnLoop_fresh. cbn [fst negb ruleAction chainAction
    forwardVPNInputRules forwardVPNOutputRules].
  rewrite app_nil_l, <- !app_assoc. reflexivity.
Qed.

Lemma ruleSetFor_uninstall (d sn gw : string) (vpns : list VPN)
  (log : list Diagnostic) :
  fst (ruleSetFor d sn gw vpns true log)
  = forwardInputRules d sn "-D" (vpnInputRulesOf sn vpns)
    ++ forwardOutputRules d sn "-D" (vpnOutputRulesOf sn vpns)
    ++ outputRules d sn gw "-D" ++ inputRules d sn gw "-D"
    ++ rules d "-D" ++ chains d "-X" ++ natRules sn "-D".
Proof.
  unfold ruleSetFor. rewrite vpnLoop_fresh. cbn [fst negb ruleAction chainAction
    forwardVPNInputRules forwardVPNOutputRules].
  rewrite app_nil_l, <- !app_assoc. reflexivity.
Qed.

Lemma groups_eq (d p : string) (vpns : list VPN) (delete : bool) :
  groups d p vpns delete
  = [ natRules (subnet p) (ruleAction delete);
      chains d (chainAction delete);
      rules d (ruleAction delete);
      inputRules d (subnet p) (gateway p) (ruleAction delete);
      outputRules d (subnet p) (gateway p) (ruleAction delete);
      forwardOutputRules d (subnet p) (ruleAction delete)
                         (vpnOutputRulesOf (subnet p) vpns);
      forwardInputRules d (subnet p) (ruleAction delete)
                        (vpnInputRulesOf (subnet p) vpns) ].
Proof. unfold groups. rewrite vpnLoop_fresh. reflexivity. Qed.

Lemma ipTableRules_install (d p : string) (vpns : list VPN) :
  ipTableRules d p vpns false = List.concat (groups d p vpns false).
Proof.
  unfold ipTableRules, ipTableRulesLogged.
  rewrite ruleSetFor_install, groups_eq. cbn [List.concat ruleAction chainAction].
  now rewrite app_nil_r.
Qed.

Lemma ipTableRules_uninstall (d p : string) (vpns : list VPN) :
  ipTableRules d p vpns true = List.concat (rev (groups d p vpns true)).
Proof.
  unfold ipTableRules, ipTableRulesLogged.
  rewrite ruleSetFor_uninstall, groups_eq.
  cbn [rev app List.concat ruleAction chainAction].
  now rewrite app_nil_r.
Qed.

Lemma forwardInputRules_split (d sn ra : string) (vr : list (list string)) :
  forwardInputRules d sn ra vr
  = map (app ["iptables"; "-w"; xtableLockWait; ra; "fwd_input_" +++ d]) vr
    ++ forwardInputRules d sn ra [].
Proof.
  unfold forwardInputRules. rewrite !prefixCommands_map, map_app. reflexivity.
Qed.

Lemma forwardOutputRules_split (d sn ra : string) (vr : list (list string)) :
  forwardOutputRules d sn ra vr
  = map (app ["iptables"; "-w"; xtableLockWait; ra; "fwd_output_" +++ d]) vr
    ++ forwardOutputRules d sn ra [].
Proof.
  unfold forwardOutputRules. rewrite !prefixCommands_map, map_app. reflexivity.
Qed.

(** ** Flipping the action verb of a group *)

Lemma flip_natRules (sn : string) :
  map flipCommand (natRules sn "-A") = natRules sn "-D".
Proof. reflexivity. Qed.

Lemma flip_chains (d : string) :
  map flipCommand (chains d "-N") = chains d "-X".
Proof. reflexivity. Qed.

Lemma flip_rules (d : string) :
  map flipCommand (rules d "-A") = rules d "-D".
Proof. reflexivity. Qed.

Lemma flip_inputRules (d sn gw : string) :
  map flipCommand (inputRules d sn gw "-A") = inputRules d sn gw "-D".
Proof. reflexivity. Qed.

Lemma flip_outputRules (d sn gw : string) :
  map flipCommand (outputRules d sn gw "-A") = outputRules d sn gw "-D".
Proof. reflexivity. Qed.

Lemma flip_prefixed (chain : string) (rows : list (list string)) :
  map flipCommand
      (map (app ["iptables"; "-w"; xtableLockWait; "-A"; chain]) rows)
  = map (app ["iptables"; "-w"; xtableLockWait; "-D"; chain]) rows.
Proof. rewrite map_map. apply map_ext. intros row. reflexivity. Qed.

Lemma flip_forwardInputRules (d sn : string) (vr : list (list string)) :
  map flipCommand (forwardInputRules d sn "-A" vr)
  = forwardInputRules d sn "-D" vr.
Proof.
  rewrite (forwardInputRules_split d sn "-A"), (forwardInputRules_split d sn "-D").
  rewrite map_app, flip_prefixed. reflexivity.
Qed.

Lemma flip_forwardOutputRules (d sn : string) (vr : list (list string)) :
  map flipCommand (forwardOutputRules d sn "-A" vr)
  = forwardOutputRules d sn "-D" vr.
Proof.
  rewrite (forwardOutputRules_split d sn "-A"), (forwardOutputRules_split d sn "-D").
  rewrite map_app, flip_prefixed. reflexivity.
Qed.

Lemma flip_groups (d p : string) (vpns : list VPN) :
  map (map flipCommand) (groups d p vpns false) = groups d p vpns true.
Proof.
  rewrite !groups_eq. cbn [map ruleAction chainAction].
  rewrite flip_natRules, flip_chains, flip_rules, flip_inputRules,
    flip_outputRules, flip_forwardInputRules, flip_forwardOutputRules.
  reflexivity.
Qed.

(** ** Group sizes *)

Lemma forwardInputRules_length (d sn ra : string) (vr : list (list string)) :
  List.length (forwardInputRules d sn ra vr) = List.length vr + 7.
Proof.
  unfold forwardInputRules. rewrite prefixCommands_length, length_app. reflexivity.
Qed.

Lemma forwardOutputRules_length (d sn ra : string) (vr : list (list string)) :
  List.length (forwardOutputRules d sn ra vr) = List.length vr + 7.
Proof.
  unfold forwardOutputRules. rewrite prefixCommands_length, length_app. reflexivity.
Qed.

Lemma ruleSetFor_length (d sn gw : string) (vpns : list VPN) (delete : bool)
  (log : list Diagnostic) :
  List.length (fst (ruleSetFor d sn gw vpns delete log))
  = 35 + 2 * ipv4RouteCount vpns.
Proof.
  destruct delete; [rewrite ruleSetFor_uninstall | rewrite ruleSetFor_install];
    rewrite !length_app, forwardInputRules_length, forwardOutputRules_length,
      vpnInputRulesOf_length, vpnOutputRulesOf_length;
    unfold natRules, chains, rules, inputRules, outputRules;
    rewrite !prefixCommands_length; cbn [List.length]; lia.
Qed.

Lemma Forall_app_intro (A : Type) (P : A -> Prop) (l1 l2 : list A) :
  Forall P l1 -> Forall P l2 -> Forall P (l1 ++ l2).
Proof. intros H1 H2. apply Forall_app. now split. Qed.

(** Splits a goal about a concatenation of groups into one goal per group. *)
Ltac split_groups :=
  repeat match goal with
         | |- Forall _ (_ ++ _) => apply Forall_app_intro
         end.

Lemma prefixCommands_Forall (P : Command -> Prop) (prefix : list string)
  (rows : list (list string)) :
  (forall row, P (prefix ++ row)) -> Forall P (prefixCommands prefix rows).
Proof.
  intros H. rewrite prefixCommands_map, Forall_map.
  apply Forall_forall. intros row _. apply H.
Qed.

Lemma VerbOnly_rule (v : string) (rest : list string) :
  v = "-A" \/ v = "-N" ->
  VerbOnly ("iptables" :: "-w" :: xtableLockWait :: v :: rest).
Proof.
  intros Hv. exists ["iptables"; "-w"; xtableLockWait], v, rest.
  repeat split; [assumption|]. destruct Hv; subst v; reflexivity.
Qed.

Lemma VerbOnly_nat (rest : list string) :
  VerbOnly ("iptables" :: "-w" :: xtableLockWait :: "-t" :: "nat" :: "-A" :: rest).
Proof.
  exists ["iptables"; "-w"; xtableLockWait; "-t"; "nat"], "-A", rest.
  repeat split. now left.
Qed.

Lemma install_groups_VerbOnly (d p : string) (vpns : list VPN) :
  Forall VerbOnly (List.concat (groups d p vpns false)).
Proof.
  rewrite groups_eq. cbn [List.concat ruleAction chainAction].
  unfold natRules, chains, rules, inputRules, outputRules, forwardOutputRules,
    forwardInputRules.
  split_groups; try apply Forall_nil;
    apply prefixCommands_Forall; intros row; cbn [app];
    first [apply VerbOnly_nat | apply VerbOnly_rule; auto].
Qed.

(** ** C1: uninstall is the mirror of install *)

(** C1.  For every device, prefix and list of VPN connections, the install
    RuleSet is the concatenation of the seven groups and the uninstall
    RuleSet is the concatenation of the same groups in reverse order with
    [flipCommand] applied to each command; each install command has an
    append or create-chain verb and [flipCommand] replaces exactly that token
    (append by delete, create-chain by destroy-chain), leaving all other
    tokens as they are; the two RuleSets have the same number of commands. *)
Theorem uninstall_mirrors_install (d p : string) (vpns : list VPN) :
  let I := groups d p vpns false in
  ipTableRules d p vpns false = List.concat I
  /\ ipTableRules d p vpns true = List.concat (rev (map (map flipCommand) I))
  /\ Forall VerbOnly (List.concat I)
  /\ List.length I = 7
  /\ List.length (ipTableRules d p vpns true)
     = List.length (ipTableRules d p vpns false).
Proof.
  cbv zeta. split; [apply ipTableRules_install|].
  split; [rewrite flip_groups; apply ipTableRules_uninstall|].
  split; [apply install_groups_VerbOnly|].
  split; [reflexivity|].
  unfold ipTableRules, ipTableRulesLogged. now rewrite !ruleSetFor_length.
Qed.

(** ** C8: the lock-wait argument *)

Lemma group_hasLockWait (a : string) (tl : list string)
  (rows : list (list string)) :
  Forall hasLockWait
         (prefixCommands ("iptables" :: "-w" :: xtableLockWait :: a :: tl) rows).
Proof.
  apply prefixCommands_Forall. intros row. eexists. reflexivity.
Qed.

(** C8.  For every input and both modes, every command of the returned
    RuleSet starts with the tool name followed by [-w] and the fixed wait
    value [xtableLockWait]. *)
Theorem every_command_waits_for_lock (d p : string) (vpns : list VPN)
  (delete : bool) :
  Forall hasLockWait (ipTableRules d p vpns delete)
  /\ xtableLockWait = "3".
Proof.
  split; [|reflexivity].
  destruct delete;
    [rewrite ipTableRules_uninstall | rewrite ipTableRules_install];
    rewrite groups_eq; cbn [rev app List.concat];
    unfold natRules, chains, rules, inputRules, outputRules, forwardOutputRules,
      forwardInputRules;
    split_groups; try apply Forall_nil; apply group_hasLockWait.
Qed.

(** ** C10: the number of commands *)

(** C10.  For every input and both modes the RuleSet has 35 + 2r commands,
    where r is the number of routes of the supplied VPN connections that
    [To4] accepts: 1 + 4 + 4 + 7 + 5 + (7 + r) + (7 + r); hence install and
    uninstall have the same length. *)
Theorem ruleset_length (d p : string) (vpns : list VPN) (delete : bool) :
  List.length (ipTableRules d p vpns delete) = 35 + 2 * ipv4RouteCount vpns
  /\ map (@List.length Command) (groups d p vpns delete)
     = [1; 4; 4; 7; 5; 7 + ipv4RouteCount vpns; 7 + ipv4RouteCount vpns]
  /\ List.length (ipTableRules d p vpns false)
     = List.length (ipTableRules d p vpns true).
Proof.
  unfold ipTableRules, ipTableRulesLogged. rewrite !ruleSetFor_length.
  repeat split.
  rewrite groups_eq. cbn [map].
  rewrite forwardInputRules_length, forwardOutputRules_length,
    vpnInputRulesOf_length, vpnOutputRulesOf_length.
  unfold natRules, chains, rules, inputRules, outputRules.
  rewrite !prefixCommands_length. cbn [List.length].
  now rewrite (Nat.add_comm (ipv4RouteCount vpns) 7).
Qed.

(** ** C9: the RuleSet is a function of the four inputs *)

Lemma ruleSetFor_log_irrelevant (d sn gw : string) (vpns : list VPN)
  (delete : bool) (log log' : list Diagnostic) :
  fst (ruleSetFor d sn gw vpns delete log)
  = fst (ruleSetFor d sn gw vpns delete log').
Proof.
  destruct delete.
  - now rewrite !ruleSetFor_uninstall.
  - now rewrite !ruleSetFor_install.
Qed.

(** C9.  Two invocations with identical device, prefix, VPN connections and
    mode return the same RuleSet, token for token, whatever the debug log
    (the only state outside the function that it touches) holds at either
    call; the call only ever extends that log. *)
Theorem identical_inputs_identical_rulesets
  (d d' p p' : string) (vpns vpns' : list VPN) (delete delete' : bool)
  (log log' : list Diagnostic) :
  d = d' -> p = p' -> vpns = vpns' -> delete = delete' ->
  fst (ipTableRulesLogged d p vpns delete log)
  = fst (ipTableRulesLogged d' p' vpns' delete' log')
  /\ fst (ipTableRulesLogged d p vpns delete log) = ipTableRules d p vpns delete
  /\ snd (ipTableRulesLogged d p vpns delete log) = log ++ diagnosticsOf vpns.
Proof.
  intros <- <- <- <-. unfold ipTableRules, ipTableRulesLogged.
  repeat split; try apply ruleSetFor_log_irrelevant.
  unfold ruleSetFor. rewrite vpnLoop_fresh. reflexivity.
Qed.

Lemma identical_inputs_identical_rulesets_witness :
  let vpns := [mkVPN "tun0" [[x0a; x08; x00; x01]; [x20; x01; x0d; xb8]
                                ++ repeat x00 11 ++ [x01]]] in
  let log' := [SkippingIPv6Route [x01]] in
  fst (ipTableRulesLogged "tap3" "192.168.50" vpns true [])
  = fst (ipTableRulesLogged "tap3" "192.168.50" vpns true log')
  /\ fst (ipTableRulesLogged "tap3" "192.168.50" vpns true [])
     = ipTableRules "tap3" "192.168.50" vpns true
  /\ snd (ipTableRulesLogged "tap3" "192.168.50" vpns true [])
     = [] ++ diagnosticsOf vpns.
Proof.
  cbv zeta.
  apply (identical_inputs_identical_rulesets
           "tap3" "tap3" "192.168.50" "192.168.50" _ _ true true);
    reflexivity.
Defined.

(** ** C2 and C3: the install scenario *)

(** C2, as stated: the forward groups of the scenario do not have six
    commands each. *)
Lemma scenario_forward_groups_not_six :
  ~ (List.length (groupOf "fwd_output_tap3" scenarioInstall) = 6
     /\ last (groupOf "fwd_output_tap3" scenarioInstall) []
        = ["iptables"; "-w"; "3"; "-A"; "fwd_output_tap3"; "-j"; "DROP"]
     /\ List.length (groupOf "fwd_input_tap3" scenarioInstall) = 6
     /\ last (groupOf "fwd_input_tap3" scenarioInstall) []
        = ["iptables"; "-w"; "3"; "-A"; "fwd_input_tap3";
           "-j"; "REJECT"; "--reject-with"; "icmp-net-prohibited"]).
Proof. intros [H _]. vm_compute in H. discriminate H. Qed.

(** C2, amended.  In the install scenario (device tap3, prefix 192.168.50,
    no VPN connection) the forward-to-device group has exactly 7 commands,
    the last of which is the unconditional drop, and the forward-from-device
    group has exactly 7 commands, the last of which is the
    network-prohibited reject. *)
Theorem scenario_forward_groups :
  groupOf "fwd_output_tap3" scenarioInstall
    = forwardOutputRules "tap3" "192.168.50.0/24" "-A" []
  /\ List.length (groupOf "fwd_output_tap3" scenarioInstall) = 7
  /\ last (groupOf "fwd_output_tap3" scenarioInstall) []
     = ["iptables"; "-w"; "3"; "-A"; "fwd_output_tap3"; "-j"; "DROP"]
  /\ groupOf "fwd_input_tap3" scenarioInstall
     = forwardInputRules "tap3" "192.168.50.0/24" "-A" []
  /\ List.length (groupOf "fwd_input_tap3" scenarioInstall) = 7
  /\ last (groupOf "fwd_input_tap3" scenarioInstall) []
     = ["iptables"; "-w"; "3"; "-A"; "fwd_input_tap3";
        "-j"; "REJECT"; "--reject-with"; "icmp-net-prohibited"].
Proof. repeat split; vm_compute; reflexivity. Qed.

(** C3.  In the install scenario the RuleSet begins with the NAT command
    (source 192.168.50.0/24, out of eth0, MASQUERADE); it has exactly 4
    chain-creation commands and exactly 4 jump-wiring commands; the
    inbound-filter group has exactly 7 commands and ends in the
    host-unreachable reject; the outbound-filter group has exactly 5
    commands and ends in the network-prohibited reject. *)
Theorem scenario_install :
  nth_error scenarioInstall 0
    = Some ["iptables"; "-w"; "3"; "-t"; "nat"; "-A"; "POSTROUTING";
            "-o"; "eth0"; "-s"; "192.168.50.0/24"; "-j"; "MASQUERADE"]
  /\ filter isChainCreation scenarioInstall = chains "tap3" "-N"
  /\ List.length (filter isChainCreation scenarioInstall) = 4
  /\ filter isJumpWiring scenarioInstall = rules "tap3" "-A"
  /\ List.length (filter isJumpWiring scenarioInstall) = 4
  /\ groupOf "input_tap3" scenarioInstall
     = inputRules "tap3" "192.168.50.0/24" "192.168.50.1" "-A"
  /\ List.length (groupOf "input_tap3" scenarioInstall) = 7
  /\ last (groupOf "input_tap3" scenarioInstall) []
     = ["iptables"; "-w"; "3"; "-A"; "input_tap3";
        "-j"; "REJECT"; "--reject-with"; "icmp-host-unreachable"]
  /\ groupOf "output_tap3" scenarioInstall
     = outputRules "tap3" "192.168.50.0/24" "192.168.50.1" "-A"
  /\ List.length (groupOf "output_tap3" scenarioInstall) = 5
  /\ last (groupOf "output_tap3" scenarioInstall) []
     = ["iptables"; "-w"; "3"; "-A"; "output_tap3";
        "-j"; "REJECT"; "--reject-with"; "icmp-net-prohibited"].
Proof. repeat split; vm_compute; reflexivity. Qed.

(** ** C4: chains are created before they are used *)

Lemma install_head (d p : string) (vpns : list VPN) :
  ipTableRules d p vpns false
  = ["iptables"; "-w"; xtableLockWait; "-t"; "nat"; "-A"; "POSTROUTING";
     "-o"; "eth0"; "-s"; subnet p; "-j"; "MASQUERADE"]
    :: createsChain ("input_" +++ d)
    :: createsChain ("output_" +++ d)
    :: createsChain ("fwd_input_" +++ d)
    :: createsChain ("fwd_output_" +++ d)
    :: (rules d "-A"
        ++ inputRules d (subnet p) (gateway p) "-A"
        ++ outputRules d (subnet p) (gateway p) "-A"
        ++ forwardOutputRules d (subnet p) "-A" (vpnOutputRulesOf (subnet p) vpns)
        ++ forwardInputRules d (subnet p) "-A" (vpnInputRulesOf (subnet p) vpns)).
Proof.
  unfold ipTableRules, ipTableRulesLogged. rewrite ruleSetFor_install.
  reflexivity.
Qed.

Lemma nat_command_references_no_device_chain (d sn chain : string) :
  In chain (deviceChains d) ->
  ~ references ["iptables"; "-w"; xtableLockWait; "-t"; "nat"; "-A";
                "POSTROUTING"; "-o"; "eth0"; "-s"; sn; "-j"; "MASQUERADE"]
               chain.
Proof.
  intros Hc [Ha | Hj].
  - cbn in Ha. injection Ha as <-.
    cbn in Hc. intuition discriminate.
  - cbn in Hj. destruct (sn =? "-j"); cbn in Hj, Hc;
      intuition (subst; discriminate).
Qed.

Lemma creation_references_nothing (c chain : string) :
  ~ references (createsChain c) chain.
Proof.
  intros [Ha | Hj].
  - cbn in Ha. discriminate Ha.
  - cbn in Hj. exact Hj.
Qed.

(** C4.  For every input with mode Install the RuleSet is the NAT group,
    the chain creations, the jump wiring, the inbound filter, the outbound
    filter, the forward-to-device group and the forward-from-device group,
    in that order; and every command that references one of the device's
    chains, as the chain it appends to or as the token after a [-j], comes
    after the command that creates that chain. *)
Theorem install_creates_before_use (d p : string) (vpns : list VPN)
  (i : nat) (cmd : Command) (chain : string) :
  nth_error (ipTableRules d p vpns false) i = Some cmd ->
  In chain (deviceChains d) ->
  references cmd chain ->
  ipTableRules d p vpns false
  = natRules (subnet p) "-A" ++ chains d "-N" ++ rules d "-A"
    ++ inputRules d (subnet p) (gateway p) "-A"
    ++ outputRules d (subnet p) (gateway p) "-A"
    ++ forwardOutputRules d (subnet p) "-A" (vpnOutputRulesOf (subnet p) vpns)
    ++ forwardInputRules d (subnet p) "-A" (vpnInputRulesOf (subnet p) vpns)
  /\ exists j, j < i
       /\ nth_error (ipTableRules d p vpns false) j = Some (createsChain chain).
Proof.
  intros Hi Hc Href. split.
  { unfold ipTableRules, ipTableRulesLogged. apply ruleSetFor_install. }
  rewrite install_head in Hi |- *.
  destruct i as [|[|[|[|[|i]]]]]; cbn [nth_error] in Hi.
  - injection Hi as <-.
    exfalso. exact (nat_command_references_no_device_chain d _ chain Hc Href).
  - injection Hi as <-. now apply creation_references_nothing in Href.
  - injection Hi as <-. now apply creation_references_nothing in Href.
  - injection Hi as <-. now apply creation_references_nothing in Href.
  - injection Hi as <-. now apply creation_references_nothing in Href.
  - clear Hi Href. unfold deviceChains in Hc.
    destruct Hc as [<- | [<- | [<- | [<- | []]]]].
    + exists 1. split; [lia | reflexivity].
    + exists 2. split; [lia | reflexivity].
    + exists 3. split; [lia | reflexivity].
    + exists 4. split; [lia | reflexivity].
Qed.

Lemma install_creates_before_use_witness :
  exists j, j < 7
    /\ nth_error (ipTableRules "tap3" "192.168.50" [] false) j
       = Some (createsChain "fwd_input_tap3").
Proof.
  apply (install_creates_before_use "tap3" "192.168.50" [] 7
           ["iptables"; "-w"; "3"; "-A"; "FORWARD"; "-i"; "tap3";
            "-j"; "fwd_input_tap3"] "fwd_input_tap3").
  - reflexivity.
  - simpl. auto.
  - right. simpl. auto.
Defined.

(** ** C6: only IPv4 routes generate forwarding rules *)

Lemma per_route_rules (A : Type) (f : Net.IPv4 -> A) (vpn : VPN) :
  flat_map (fun ip => match Net.To4 ip with
                      | Some r => [f r]
                      | None => []
                      end) (Routes vpn)
  = map f (ipv4Routes vpn).
Proof.
  unfold ipv4Routes. induction (Routes vpn) as [|ip routes IH]; simpl.
  - reflexivity.
  - rewrite IH. destruct (Net.To4 ip); reflexivity.
Qed.

Lemma ipv4Routes_count (vpn : VPN) :
  List.length (ipv4Routes vpn) + List.length (skippedRoutes vpn)
  = List.length (Routes vpn).
Proof.
  unfold ipv4Routes, skippedRoutes.
  induction (Routes vpn) as [|ip routes IH]; simpl; [reflexivity|].
  destruct (Net.To4 ip); simpl; lia.
Qed.

(** ** C5: the derived addresses *)

Section FaithfulFamilies.

Lemma Faithful_const (l : list Command) : Faithful (fun _ => l).
Proof. split; [reflexivity | intros i; left; reflexivity]. Qed.

Lemma Faithful_cons (f : string -> Command) (F : string -> list Command) :
  (forall x y, f x = f y) \/ (forall x, In x (f x)) ->
  Faithful F -> Faithful (fun x => f x :: F x).
Proof.
  intros Hf [Hlen HF]. split.
  - intros x y. simpl. now rewrite (Hlen x y).
  - intros [|i]; simpl.
    + destruct Hf as [Hf | Hf].
      * left. intros x y. now rewrite (Hf x y).
      * right. intros x c [= <-]. apply Hf.
    + apply HF.
Qed.

Lemma Faithful_app (F G : string -> list Command) :
  Faithful F -> Faithful G -> Faithful (fun x => F x ++ G x).
Proof.
  intros [HlenF HF] [HlenG HG]. split.
  - intros x y. now rewrite !length_app, (HlenF x y), (HlenG x y).
  - intros i. destruct (Nat.lt_ge_cases i (List.length (F ""))) as [Hlt | Hge].
    + destruct (HF i) as [H | H]; [left | right].
      * intros x y. pose proof (HlenF x "") as Ex. pose proof (HlenF y "") as Ey.
        rewrite !nth_error_app1 by lia. apply H.
      * intros x c. pose proof (HlenF x "") as Ex.
        rewrite nth_error_app1 by lia. apply H.
    + destruct (HG (i - List.length (F ""))) as [H | H]; [left | right].
      * intros x y. pose proof (HlenF x "") as Ex. pose proof (HlenF y "") as Ey.
        rewrite !nth_error_app2 by lia. rewrite Ex, Ey. apply H.
      * intros x c. pose proof (HlenF x "") as Ex.
        rewrite nth_error_app2 by lia. rewrite Ex. apply H.
Qed.

Lemma Faithful_ext (F G : string -> list Command) :
  (forall x, F x = G x) -> Faithful F -> Faithful G.
Proof.
  intros Heq [Hlen HF]. split.
  - intros x y. rewrite <- !Heq. apply Hlen.
  - intros i. destruct (HF i) as [H | H]; [left | right].
    + intros x y. rewrite <- !Heq. apply H.
    + intros x c. rewrite <- Heq. apply H.
Qed.

Lemma Faithful_all (F : string -> list Command) :
  (forall x y, List.length (F x) = List.length (F y)) ->
  (forall x, Forall (In x) (F x)) ->
  Faithful F.
Proof.
  intros Hlen Hall. split; [exact Hlen|].
  intros i. right. intros x c Hc.
  apply nth_error_In in Hc.
  exact (proj1 (Forall_forall _ _) (Hall x) c Hc).
Qed.

End FaithfulFamilies.

(** Decides, row by row, a family given as an explicit list of commands. *)
Ltac faithful_rows :=
  repeat (apply Faithful_cons;
          [first [ left; intros; reflexivity
                 | right; intros; cbn [In];
                   solve [repeat first [left; reflexivity | right]] ] |]);
  apply Faithful_const.

Lemma vpn_rules_mention_subnet (prefix : list string) (vpns : list VPN)
  (sn : string) :
  Forall (In sn) (map (app prefix) (vpnInputRulesOf sn vpns))
  /\ Forall (In sn) (map (app prefix) (vpnOutputRulesOf sn vpns)).
Proof.
  unfold vpnInputRulesOf, vpnOutputRulesOf.
  split; rewrite Forall_map; apply Forall_forall; intros row Hrow;
    apply in_flat_map in Hrow; destruct Hrow as (vpn & _ & Hrow);
    apply in_map_iff in Hrow; destruct Hrow as (r & <- & _);
    apply in_or_app; right; cbn; tauto.
Qed.

Lemma ruleSetFor_Faithful_subnet (d gw : string) (vpns : list VPN)
  (delete : bool) :
  Faithful (fun sn => fst (ruleSetFor d sn gw vpns delete [])).
Proof.
  assert (Hin : forall ra,
             Faithful (fun sn => forwardInputRules d sn ra (vpnInputRulesOf sn vpns))).
  { intros ra. eapply Faithful_ext;
      [intros sn; symmetry; apply forwardInputRules_split|].
    apply Faithful_app.
    - apply Faithful_all.
      + intros x y. now rewrite !length_map, !vpnInputRulesOf_length.
      + intros x. apply vpn_rules_mention_subnet.
    - unfold forwardInputRules, prefixCommands. cbn [fold_left app].
      faithful_rows. }
  assert (Hout : forall ra,
             Faithful (fun sn => forwardOutputRules d sn ra (vpnOutputRulesOf sn vpns))).
  { intros ra. eapply Faithful_ext;
      [intros sn; symmetry; apply forwardOutputRules_split|].
    apply Faithful_app.
    - apply Faithful_all.
      + intros x y. now rewrite !length_map, !vpnOutputRulesOf_length.
      + intros x. apply vpn_rules_mention_subnet.
    - unfold forwardOutputRules, prefixCommands. cbn [fold_left app].
      faithful_rows. }
  assert (Hnat : forall ra, Faithful (fun sn => natRules sn ra)).
  { intros ra. unfold natRules, prefixCommands. cbn [fold_left app].
    faithful_rows. }
  assert (Hi : forall ra, Faithful (fun sn => inputRules d sn gw ra)).
  { intros ra. unfold inputRules, prefixCommands. cbn [fold_left app].
    faithful_rows. }
  assert (Ho : forall ra, Faithful (fun sn => outputRules d sn gw ra)).
  { intros ra. unfold outputRules, prefixCommands. cbn [fold_left app].
    faithful_rows. }
  destruct delete.
  - eapply Faithful_ext; [intros sn; symmetry; apply ruleSetFor_uninstall|].
    apply Faithful_app; [apply Hin|].
    apply Faithful_app; [apply Hout|].
    apply Faithful_app; [apply Ho|].
    apply Faithful_app; [apply Hi|].
    apply Faithful_app; [apply Faithful_const|].
    apply Faithful_app; [apply Faithful_const|].
    apply Hnat.
  - eapply Faithful_ext; [intros sn; symmetry; apply ruleSetFor_install|].
    apply Faithful_app; [apply Hnat|].
    apply Faithful_app; [apply Faithful_const|].
    apply Faithful_app; [apply Faithful_const|].
    apply Faithful_app; [apply Hi|].
    apply Faithful_app; [apply Ho|].
    apply Faithful_app; [apply Hout|].
    apply Hin.
Qed.

Lemma ruleSetFor_Faithful_gateway (d sn : string) (vpns : list VPN)
  (delete : bool) :
  Faithful (fun gw => fst (ruleSetFor d sn gw vpns delete [])).
Proof.
  assert (Hi : forall ra, Faithful (fun gw => inputRules d sn gw ra)).
  { intros ra. unfold inputRules, prefixCommands. cbn [fold_left app].
    faithful_rows. }
  assert (Ho : forall ra, Faithful (fun gw => outputRules d sn gw ra)).
  { intros ra. unfold outputRules, prefixCommands. cbn [fold_left app].
    faithful_rows. }
  destruct delete.
  - eapply Faithful_ext; [intros gw; symmetry; apply ruleSetFor_uninstall|].
    apply Faithful_app; [apply Faithful_const|].
    apply Faithful_app; [apply Faithful_const|].
    apply Faithful_app; [apply Ho|].
    apply Faithful_app; [apply Hi|].
    apply Faithful_const.
  - eapply Faithful_ext; [intros gw; symmetry; apply ruleSetFor_install|].
    apply Faithful_app; [apply Faithful_const|].
    apply Faithful_app; [apply Faithful_const|].
    apply Faithful_app; [apply Faithful_const|].
    apply Faithful_app; [apply Hi|].
    apply Faithful_app; [apply Ho|].
    apply Faithful_const.
Qed.

Lemma Faithful_reference (F : string -> list Command) (i : nat) (x : string)
  (cmd : Command) :
  Faithful F ->
  (exists a b, nth_error (F a) i <> nth_error (F b) i) ->
  nth_error (F x) i = Some cmd ->
  In x cmd.
Proof.
  intros [_ HF] (a & b & Hab) Hx.
  destruct (HF i) as [H | H].
  - exfalso. apply Hab, H.
  - exact (H x cmd Hx).
Qed.

(** C5.  For every prefix the subnet used in the rules is the prefix
    followed by [.0/24] and the gateway is the prefix followed by [.1],
    without any validation; every command of the RuleSet that depends on the
    subnet has that exact string as one of its tokens, and every command
    that depends on the gateway has the gateway string as one of its
    tokens.  For the prefix 10.138.5 these are 10.138.5.0/24 and
    10.138.5.1. *)
Theorem address_derivation (d p : string) (vpns : list VPN) (delete : bool)
  (i : nat) (cmd : Command) :
  nth_error (ipTableRules d p vpns delete) i = Some cmd ->
  subnet p = p +++ ".0/24"
  /\ gateway p = p +++ ".1"
  /\ subnet "10.138.5" = "10.138.5.0/24"
  /\ gateway "10.138.5" = "10.138.5.1"
  /\ ipTableRules d p vpns delete
     = fst (ruleSetFor d (p +++ ".0/24") (p +++ ".1") vpns delete [])
  /\ (referencesSubnet d (gateway p) vpns delete i -> In (p +++ ".0/24") cmd)
  /\ (referencesGateway d (subnet p) vpns delete i -> In (p +++ ".1") cmd).
Proof.
  intros Hi. do 5 (split; [reflexivity|]). split.
  - intros Href.
    exact (Faithful_reference _ i (subnet p) cmd
             (ruleSetFor_Faithful_subnet d (gateway p) vpns delete) Href Hi).
  - intros Href.
    exact (Faithful_reference _ i (gateway p) cmd
             (ruleSetFor_Faithful_gateway d (subnet p) vpns delete) Href Hi).
Qed.

Lemma address_derivation_witness :
  let cmd :=
    ["iptables"; "-w"; "3"; "-A"; "input_tap0"; "-p"; "tcp";
     "-s"; "10.138.5.0/24"; "-d"; "10.138.5.1"; "-m"; "tcp"; "--dport"; "53";
     "-m"; "state"; "--state"; "NEW,ESTABLISHED"; "-j"; "ACCEPT"] in
  nth_error (ipTableRules "tap0" "10.138.5" [vpnMixed] false) 10 = Some cmd
  /\ In "10.138.5.0/24" cmd /\ In "10.138.5.1" cmd.
Proof.
  cbv zeta. split; [reflexivity|].
  destruct (address_derivation "tap0" "10.138.5" [vpnMixed] false 10 _ eq_refl)
    as (_ & _ & _ & _ & _ & Hs & Hg).
  split.
  - apply Hs. exists "a", "b". discriminate.
  - apply Hg. exists "a", "b". discriminate.
Defined.

(** ** Occurrences of one string in another *)

Section Substrings.

Lemma occursIn_app (c : ascii) (a b : string) :
  occursIn c (a +++ b) = occursIn c a || occursIn c b.
Proof.
  induction a as [|x a IH]; simpl; [reflexivity|].
  now rewrite IH, orb_assoc.
Qed.

Lemma allIn_weaken (s t : string) (x : ascii) :
  allIn s t = true -> allIn s (String x t) = true.
Proof.
  induction s as [|c s IH]; simpl; [reflexivity|].
  intros H. apply andb_true_iff in H. destruct H as [Hc Hs].
  rewrite Hc, orb_true_r. now apply IH.
Qed.

Lemma prefix_allIn (s t : string) :
  String.prefix s t = true -> allIn s t = true.
Proof.
  revert t. induction s as [|c s IH]; intros t; simpl; [reflexivity|].
  destruct t as [|x t]; simpl; [discriminate|].
  destruct (ascii_dec c x) as [<- | _]; intros H; [|discriminate H].
  rewrite Ascii.eqb_refl. simpl.
  apply allIn_weaken, IH, H.
Qed.

Lemma substringb_allIn (s t : string) :
  substringb s t = true -> allIn s t = true.
Proof.
  induction t as [|x t IH]; simpl; intros H.
  - rewrite orb_false_r in H. now apply prefix_allIn.
  - apply orb_true_iff in H. destruct H as [H | H].
    + now apply prefix_allIn.
    + apply allIn_weaken, IH, H.
Qed.

Lemma occursIn_allIn (c : ascii) (t u : string) :
  occursIn c t = true -> allIn t u = true -> occursIn c u = true.
Proof.
  induction t as [|x t IH]; simpl; [discriminate|].
  intros Hc Hu. apply andb_true_iff in Hu. destruct Hu as [Hx Ht].
  apply orb_true_iff in Hc. destruct Hc as [Hc | Hc].
  - apply Ascii.eqb_eq in Hc. now subst x.
  - now apply IH.
Qed.

Lemma allIn_trans (s t u : string) :
  allIn s t = true -> allIn t u = true -> allIn s u = true.
Proof.
  induction s as [|c s IH]; simpl; [reflexivity|].
  intros H Hu. apply andb_true_iff in H. destruct H as [Hc Hs].
  rewrite (occursIn_allIn c t u Hc Hu). now apply IH.
Qed.

Lemma allIn_app (a b u : string) :
  allIn a u = true -> allIn b u = true -> allIn (a +++ b) u = true.
Proof.
  induction a as [|x a IH]; simpl; [auto|].
  intros H Hb. apply andb_true_iff in H. destruct H as [Hx Ha].
  rewrite Hx. now apply IH.
Qed.

(** A string with a character outside [u] does not occur in a string made
    of the characters of [u]. *)
Lemma substringb_foreign (s t u : string) :
  allIn s u = false -> allIn t u = true -> substringb s t = false.
Proof.
  intros Hs Ht. destruct (substringb s t) eqn:E; [|reflexivity].
  apply substringb_allIn in E.
  now rewrite (allIn_trans s t u E Ht) in Hs.
Qed.

Lemma substringb_cons (s t : string) (x : ascii) :
  substringb s (String x t)
  = String.prefix s (String x t) || substringb s t.
Proof. reflexivity. Qed.

Lemma prefix_app_clean (s a suf : string) :
  noCommonChar s suf = true ->
  String.prefix s (a +++ suf) = true -> String.prefix s a = true.
Proof.
  revert s. induction a as [|x a IH]; intros s Hn; simpl.
  - destruct s as [|c s]; [reflexivity|].
    destruct suf as [|y suf]; [discriminate|].
    simpl in Hn |- *. destruct (ascii_dec c y) as [<- | _]; intros H.
    + now rewrite Ascii.eqb_refl in Hn.
    + discriminate H.
  - destruct s as [|c s]; [reflexivity|]. simpl.
    destruct (ascii_dec c x); intros H; [|discriminate H].
    simpl in Hn. apply andb_true_iff in Hn. apply IH; [apply Hn | exact H].
Qed.

(** Appending a suffix that shares no character with [s], and does not
    contain it, creates no occurrence of [s]. *)
Lemma substringb_app_clean (s a suf : string) :
  noCommonChar s suf = true ->
  substringb s suf = false ->
  substringb s a = false ->
  substringb s (a +++ suf) = false.
Proof.
  intros Hn Hsuf. induction a as [|x a IH]; intros Ha; [exact Hsuf|].
  rewrite substringb_cons in Ha.
  apply orb_false_iff in Ha. destruct Ha as [Hp Ha].
  change (String x a +++ suf) with (String x (a +++ suf)).
  rewrite substringb_cons, (IH Ha), orb_false_r.
  destruct (String.prefix s (String x (a +++ suf))) eqn:E; [|reflexivity].
  apply (prefix_app_clean s (String x a) suf Hn) in E. congruence.
Qed.

Lemma uitoa_dotted (b : byte) : allIn (Net.uitoa b) dottedChars = true.
Proof. destruct b; vm_compute; reflexivity. Qed.

Lemma String4_dotted (r : Net.IPv4) :
  allIn (Net.String4 r) dottedChars = true.
Proof.
  destruct r as [[[a b] c] d]. unfold Net.String4.
  repeat (apply allIn_app; [first [apply uitoa_dotted | reflexivity] |]).
  apply uitoa_dotted.
Qed.

Lemma mentions_false (id : string) (cmd : Command) :
  cleanOf id cmd -> mentions id cmd = false.
Proof.
  unfold cleanOf, mentions. induction 1 as [|tok cmd Htok _ IH]; simpl.
  - reflexivity.
  - now rewrite Htok, IH.
Qed.

End Substrings.

(** ** C7: two devices do not mention each other *)

Ltac clean_tokens :=
  repeat (apply Forall_cons; [first [assumption | vm_compute; reflexivity] |]);
  apply Forall_nil.

Ltac clean_rows :=
  repeat (apply Forall_cons; [apply mentions_false; clean_tokens |]);
  apply Forall_nil.

Lemma route_clean (o : string) (r : Net.IPv4) :
  o = "tapA" \/ o = "tapB" -> substringb o (Net.String4 r) = false.
Proof.
  intros Ho. apply (substringb_foreign o _ dottedChars).
  - destruct Ho as [-> | ->]; reflexivity.
  - apply String4_dotted.
Qed.

Lemma vpn_rows_clean (o sn : string) (prefix : list string) (vpns : list VPN) :
  o = "tapA" \/ o = "tapB" ->
  cleanOf o prefix ->
  substringb o sn = false ->
  Forall (fun vpn => substringb o (DeviceName vpn) = false) vpns ->
  Forall (fun cmd => mentions o cmd = false)
         (map (app prefix) (vpnInputRulesOf sn vpns))
  /\ Forall (fun cmd => mentions o cmd = false)
            (map (app prefix) (vpnOutputRulesOf sn vpns)).
Proof.
  intros Ho Hp Hsn Hv. unfold vpnInputRulesOf, vpnOutputRulesOf.
  split; rewrite Forall_map; apply Forall_forall; intros row Hrow;
    apply in_flat_map in Hrow; destruct Hrow as (vpn & Hvpn & Hrow);
    apply in_map_iff in Hrow; destruct Hrow as (r & <- & _);
    pose proof (proj1 (Forall_forall _ _) Hv vpn Hvpn) as Hdev;
    pose proof (route_clean o r Ho) as Hr;
    apply mentions_false, Forall_app_intro; try exact Hp;
    destruct Ho as [-> | ->]; clean_tokens.
Qed.

Lemma ruleSetFor_clean (o d sn gw : string) (vpns : list VPN) (delete : bool) :
  (o = "tapB" /\ d = "tapA") \/ (o = "tapA" /\ d = "tapB") ->
  substringb o sn = false ->
  substringb o gw = false ->
  Forall (fun vpn => substringb o (DeviceName vpn) = false) vpns ->
  Forall (fun cmd => mentions o cmd = false)
         (fst (ruleSetFor d sn gw vpns delete [])).
Proof.
  intros Hod Hsn Hgw Hv.
  assert (Ho : o = "tapA" \/ o = "tapB") by (destruct Hod as [[-> _] | [-> _]]; auto).
  assert (Hfwd : forall ra, ra = "-A" \/ ra = "-D" ->
    Forall (fun cmd => mentions o cmd = false)
           (forwardInputRules d sn ra (vpnInputRulesOf sn vpns))
    /\ Forall (fun cmd => mentions o cmd = false)
              (forwardOutputRules d sn ra (vpnOutputRulesOf sn vpns))).
  { intros ra Hra.
    rewrite forwardInputRules_split, forwardOutputRules_split.
    split; apply Forall_app_intro.
    - apply vpn_rows_clean; try assumption.
      destruct Hod as [[-> ->] | [-> ->]], Hra as [-> | ->]; clean_tokens.
    - unfold forwardInputRules, prefixCommands. cbn [fold_left app].
      destruct Hod as [[-> ->] | [-> ->]], Hra as [-> | ->]; clean_rows.
    - apply vpn_rows_clean; try assumption.
      destruct Hod as [[-> ->] | [-> ->]], Hra as [-> | ->]; clean_tokens.
    - unfold forwardOutputRules, prefixCommands. cbn [fold_left app].
      destruct Hod as [[-> ->] | [-> ->]], Hra as [-> | ->]; clean_rows. }
  destruct delete;
    [rewrite ruleSetFor_uninstall; destruct (Hfwd "-D") as [Hin Hout]; auto
    |rewrite ruleSetFor_install; destruct (Hfwd "-A") as [Hin Hout]; auto];
    split_groups; try assumption;
    unfold natRules, chains, rules, inputRules, outputRules, prefixCommands;
    cbn [fold_left app];
    destruct Hod as [[-> ->] | [-> ->]]; clean_rows.
Qed.

Lemma managedChains_app (a b : list Command) :
  managedChains (a ++ b) = managedChains a ++ managedChains b.
Proof. unfold managedChains. apply flat_map_app. Qed.

Lemma managedChains_rule_rows (ra chain : string) (rows : list (list string)) :
  ra = "-A" \/ ra = "-D" ->
  managedChains (map (app ["iptables"; "-w"; xtableLockWait; ra; chain]) rows)
  = [].
Proof.
  intros Hra. induction rows as [|row rows IH]; [reflexivity|].
  change (map ?f (row :: rows)) with ([f row] ++ map f rows).
  rewrite managedChains_app, IH.
  destruct Hra as [-> | ->]; reflexivity.
Qed.

Lemma managedChains_ruleset (d p : string) (vpns : list VPN) (delete : bool) :
  managedChains (ipTableRules d p vpns delete) = deviceChains d.
Proof.
  unfold ipTableRules, ipTableRulesLogged.
  destruct delete;
    [rewrite ruleSetFor_uninstall | rewrite ruleSetFor_install];
    rewrite forwardInputRules_split, forwardOutputRules_split;
    rewrite !managedChains_app, !managedChains_rule_rows by auto;
    reflexivity.
Qed.

Lemma subnet_gateway_clean (o p : string) :
  o = "tapA" \/ o = "tapB" ->
  substringb o p = false ->
  substringb o (subnet p) = false /\ substringb o (gateway p) = false.
Proof.
  intros Ho Hp. unfold subnet, gateway.
  split; apply substringb_app_clean; try exact Hp;
    destruct Ho as [-> | ->]; reflexivity.
Qed.

(** * Further properties of [ipTableRules] *)

(** ** Teardown order *)

Lemma uninstall_tail (d p : string) (vpns : list VPN) :
  ipTableRules d p vpns true
  = (forwardInputRules d (subnet p) "-D" (vpnInputRulesOf (subnet p) vpns)
     ++ forwardOutputRules d (subnet p) "-D" (vpnOutputRulesOf (subnet p) vpns)
     ++ outputRules d (subnet p) (gateway p) "-D"
     ++ inputRules d (subnet p) (gateway p) "-D"
     ++ rules d "-D")
    ++ [ destroysChain ("input_" +++ d);
         destroysChain ("output_" +++ d);
         destroysChain ("fwd_input_" +++ d);
         destroysChain ("fwd_output_" +++ d);
         ["iptables"; "-w"; xtableLockWait; "-t"; "nat"; "-D"; "POSTROUTING";
          "-o"; "eth0"; "-s"; subnet p; "-j"; "MASQUERADE"] ].
Proof.
  unfold ipTableRules, ipTableRulesLogged. rewrite ruleSetFor_uninstall.
  rewrite <- !app_assoc. reflexivity.
Qed.

Lemma nat_delete_references_no_device_chain (d sn chain : string) :
  In chain (deviceChains d) ->
  ~ referencesOnDelete
      ["iptables"; "-w"; xtableLockWait; "-t"; "nat"; "-D";
       "POSTROUTING"; "-o"; "eth0"; "-s"; sn; "-j"; "MASQUERADE"]
      chain.
Proof.
  intros Hc [Ha | Hj].
  - cbn in Ha. injection Ha as <-.
    cbn in Hc. intuition discriminate.
  - cbn in Hj. destruct (sn =? "-j"); cbn in Hj, Hc;
      intuition (subst; discriminate).
Qed.

Lemma destruction_references_nothing (c chain : string) :
  ~ referencesOnDelete (destroysChain c) chain.
Proof.
  intros [Ha | Hj].
  - cbn in Ha. discriminate Ha.
  - cbn in Hj. exact Hj.
Qed.

(** X1.  In the uninstall RuleSet every command that references one of the
    device's chains, as the chain it deletes a rule from or as the token
    after a [-j], comes before the command that destroys that chain. *)
Theorem uninstall_deletes_before_destroy (d p : string) (vpns : list VPN)
  (i : nat) (cmd : Command) (chain : string) :
  nth_error (ipTableRules d p vpns true) i = Some cmd ->
  In chain (deviceChains d) ->
  referencesOnDelete cmd chain ->
  exists j, i < j
    /\ nth_error (ipTableRules d p vpns true) j = Some (destroysChain chain).
Proof.
  intros Hi Hc Href. rewrite uninstall_tail in Hi |- *.
  set (pre := forwardInputRules d (subnet p) "-D" (vpnInputRulesOf (subnet p) vpns)
              ++ forwardOutputRules d (subnet p) "-D" (vpnOutputRulesOf (subnet p) vpns)
              ++ outputRules d (subnet p) (gateway p) "-D"
              ++ inputRules d (subnet p) (gateway p) "-D"
              ++ rules d "-D") in *.
  destruct (Nat.lt_ge_cases i (List.length pre)) as [Hlt | Hge].
  - clear Hi Href. unfold deviceChains in Hc.
    destruct Hc as [<- | [<- | [<- | [<- | []]]]];
      [exists (List.length pre + 0) | exists (List.length pre + 1)
      |exists (List.length pre + 2) | exists (List.length pre + 3)];
      (split; [lia|]);
      rewrite nth_error_app2 by lia;
      match goal with
      | |- nth_error _ (?n + ?k - ?n) = _ =>
          replace (n + k - n) with k by lia
      end; reflexivity.
  - exfalso. rewrite nth_error_app2 in Hi by exact Hge.
    apply nth_error_In in Hi.
    destruct Hi as [<- | [<- | [<- | [<- | [<- | []]]]]];
      try (now apply destruction_references_nothing in Href).
    exact (nat_delete_references_no_device_chain d _ chain Hc Href).
Qed.

Lemma uninstall_deletes_before_destroy_witness :
  exists j, 28 < j
    /\ nth_error (ipTableRules "tap3" "192.168.50" [] true) j
       = Some (destroysChain "fwd_input_tap3").
Proof.
  apply (uninstall_deletes_before_destroy "tap3" "192.168.50" [] 28
           ["iptables"; "-w"; "3"; "-D"; "FORWARD"; "-i"; "tap3";
            "-j"; "fwd_input_tap3"] "fwd_input_tap3").
  - reflexivity.
  - simpl. auto.
  - right. simpl. auto.
Defined.

(** ** The rules of each chain *)

Lemma groupOf_app (chain : string) (a b : list Command) :
  groupOf chain (a ++ b) = groupOf chain a ++ groupOf chain b.
Proof. unfold groupOf. apply filter_app. Qed.

Lemma groupOf_rows_same (ra chain : string) (rows : list (list string)) :
  ra = "-A" \/ ra = "-D" ->
  groupOf chain (map (app ["iptables"; "-w"; xtableLockWait; ra; chain]) rows)
  = map (app ["iptables"; "-w"; xtableLockWait; ra; chain]) rows.
Proof.
  intros Hra. induction rows as [|row rows IH]; [reflexivity|].
  change (map ?f (row :: rows)) with ([f row] ++ map f rows).
  rewrite groupOf_app, IH. f_equal.
  destruct Hra as [-> | ->]; cbn; rewrite String.eqb_refl; reflexivity.
Qed.

Lemma groupOf_rows_other (ra chain chain' : string) (rows : list (list string)) :
  ra = "-A" \/ ra = "-D" ->
  (chain =? chain') = false ->
  groupOf chain' (map (app ["iptables"; "-w"; xtableLockWait; ra; chain]) rows)
  = [].
Proof.
  intros Hra Hne. induction rows as [|row rows IH]; [reflexivity|].
  change (map ?f (row :: rows)) with ([f row] ++ map f rows).
  rewrite groupOf_app, IH.
  destruct Hra as [-> | ->]; cbn; rewrite Hne; reflexivity.
Qed.

Lemma groupOf_fixed_groups (d sn ra ca chain : string) :
  In chain (deviceChains d) ->
  ra = "-A" \/ ra = "-D" ->
  ca = "-N" \/ ca = "-X" ->
  groupOf chain (natRules sn ra) = []
  /\ groupOf chain (chains d ca) = []
  /\ groupOf chain (rules d ra) = [].
Proof.
  intros Hc Hra Hca. unfold deviceChains in Hc.
  destruct Hc as [<- | [<- | [<- | [<- | []]]]];
    destruct Hra as [-> | ->]; destruct Hca as [-> | ->];
    repeat split; reflexivity.
Qed.

Lemma ruleAction_cases (delete : bool) :
  ruleAction delete = "-A" \/ ruleAction delete = "-D".
Proof. destruct delete; auto. Qed.

Lemma chainAction_cases (delete : bool) :
  chainAction delete = "-N" \/ chainAction delete = "-X".
Proof. destruct delete; auto. Qed.

Lemma ipTableRules_groups (d p : string) (vpns : list VPN) (delete : bool) :
  ipTableRules d p vpns delete
  = List.concat (if delete then rev (groups d p vpns delete)
                 else groups d p vpns delete).
Proof.
  destruct delete; [apply ipTableRules_uninstall | apply ipTableRules_install].
Qed.

Ltac group_of_rows :=
  repeat first
    [ rewrite groupOf_rows_same by apply ruleAction_cases
    | rewrite groupOf_rows_other by (first [apply ruleAction_cases | reflexivity]) ].

Ltac group_of_chain d p delete k :=
  rewrite ipTableRules_groups, groups_eq;
  let Hn := fresh "Hn" in
  let Hc := fresh "Hc" in
  let Hr := fresh "Hr" in
  let Hin := fresh "Hin" in
  assert (Hin : In (nth k (deviceChains d) "") (deviceChains d))
    by (apply nth_In; unfold deviceChains; cbn [List.length]; lia);
  destruct (groupOf_fixed_groups d (subnet p) (ruleAction delete)
              (chainAction delete) (nth k (deviceChains d) "") Hin
              (ruleAction_cases delete) (chainAction_cases delete))
    as (Hn & Hc & Hr);
  clear Hin;
  cbn [nth deviceChains] in Hn, Hc, Hr;
  destruct delete; cbn [rev app List.concat]; rewrite !groupOf_app, Hn, Hc, Hr;
  unfold inputRules, outputRules, forwardInputRules, forwardOutputRules;
  rewrite !prefixCommands_map; group_of_rows;
  cbn [app]; rewrite ?app_nil_r; reflexivity.

Lemma groupOf_input (d p : string) (vpns : list VPN) (delete : bool) :
  groupOf ("input_" +++ d) (ipTableRules d p vpns delete)
  = inputRules d (subnet p) (gateway p) (ruleAction delete).
Proof. group_of_chain d p delete 0. Qed.

Lemma groupOf_output (d p : string) (vpns : list VPN) (delete : bool) :
  groupOf ("output_" +++ d) (ipTableRules d p vpns delete)
  = outputRules d (subnet p) (gateway p) (ruleAction delete).
Proof. group_of_chain d p delete 1. Qed.

Lemma groupOf_fwd_input (d p : string) (vpns : list VPN) (delete : bool) :
  groupOf ("fwd_input_" +++ d) (ipTableRules d p vpns delete)
  = forwardInputRules d (subnet p) (ruleAction delete)
                      (vpnInputRulesOf (subnet p) vpns).
Proof. group_of_chain d p delete 2. Qed.

Lemma groupOf_fwd_output (d p : string) (vpns : list VPN) (delete : bool) :
  groupOf ("fwd_output_" +++ d) (ipTableRules d p vpns delete)
  = forwardOutputRules d (subnet p) (ruleAction delete)
                       (vpnOutputRulesOf (subnet p) vpns).
Proof. group_of_chain d p delete 3. Qed.

(** X2.  For every input and both modes, the commands of the RuleSet that
    append to or delete from one of the four chains of the device are exactly
    the corresponding rule group, in table order: the inbound filter, the
    outbound filter, the forward-from-device rules and the forward-to-device
    rules, the two forward groups starting with the VPN rules. *)
Theorem rules_of_each_chain (d p : string) (vpns : list VPN) (delete : bool) :
  let rs := ipTableRules d p vpns delete in
  let ra := ruleAction delete in
  groupOf ("input_" +++ d) rs = inputRules d (subnet p) (gateway p) ra
  /\ groupOf ("output_" +++ d) rs = outputRules d (subnet p) (gateway p) ra
  /\ groupOf ("fwd_input_" +++ d) rs
     = forwardInputRules d (subnet p) ra (vpnInputRulesOf (subnet p) vpns)
  /\ groupOf ("fwd_output_" +++ d) rs
     = forwardOutputRules d (subnet p) ra (vpnOutputRulesOf (subnet p) vpns).
Proof.
  cbv zeta. split; [apply groupOf_input|].
  split; [apply groupOf_output|].
  split; [apply groupOf_fwd_input | apply groupOf_fwd_output].
Qed.

(** ** Each chain ends in its catch-all rule *)

Lemma last_app_nonempty (A : Type) (a b : list A) (x : A) :
  b <> [] -> last (a ++ b) x = last b x.
Proof.
  intros Hb. induction a as [|y a IH]; [reflexivity|].
  simpl. rewrite IH. destruct (a ++ b) eqn:E; [|reflexivity].
  apply app_eq_nil in E. destruct E as [_ ->]. now elim Hb.
Qed.

(** X3.  For every input and both modes, whatever routes the VPN
    connections contribute, the last rule of each of the device's four chains
    is its catch-all with an empty match: host-unreachable reject for the
    inbound filter, network-prohibited reject for the outbound filter and for
    forward-from-device, and a plain drop for forward-to-device. *)
Theorem every_chain_ends_in_catch_all (d p : string) (vpns : list VPN)
  (delete : bool) :
  let rs := ipTableRules d p vpns delete in
  let start := ["iptables"; "-w"; xtableLockWait; ruleAction delete] in
  last (groupOf ("input_" +++ d) rs) []
  = start ++ ["input_" +++ d;
              "-j"; "REJECT"; "--reject-with"; "icmp-host-unreachable"]
  /\ last (groupOf ("output_" +++ d) rs) []
     = start ++ ["output_" +++ d;
                 "-j"; "REJECT"; "--reject-with"; "icmp-net-prohibited"]
  /\ last (groupOf ("fwd_input_" +++ d) rs) []
     = start ++ ["fwd_input_" +++ d;
                 "-j"; "REJECT"; "--reject-with"; "icmp-net-prohibited"]
  /\ last (groupOf ("fwd_output_" +++ d) rs) []
     = start ++ ["fwd_output_" +++ d; "-j"; "DROP"].
Proof.
  cbv zeta.
  rewrite groupOf_input, groupOf_output, groupOf_fwd_input, groupOf_fwd_output.
  rewrite forwardInputRules_split, forwardOutputRules_split.
  rewrite !last_app_nonempty by discriminate.
  repeat split.
Qed.

(** ** What the accept rules require *)

Lemma hasOption_here (opt val : string) (post : list string) :
  hasOption opt val (opt :: val :: post).
Proof. exists [], post. reflexivity. Qed.

Lemma hasOption_skip (opt val tok : string) (cmd : Command) :
  hasOption opt val cmd -> hasOption opt val (tok :: cmd).
Proof. intros (pre & post & ->). exists (tok :: pre), post. reflexivity. Qed.

Lemma hasOption_prefixed (opt val : string) (prefix row : list string) :
  hasOption opt val row -> hasOption opt val (prefix ++ row).
Proof.
  intros (pre & post & ->). exists (prefix ++ pre), post.
  now rewrite app_assoc.
Qed.

Ltac has_option :=
  repeat first [apply hasOption_here | apply hasOption_skip].

Lemma in_vpn_rows (A : Type) (f : VPN -> Net.IPv4 -> A) (vpns : list VPN)
  (x : A) :
  In x (flat_map (fun vpn => map (f vpn) (ipv4Routes vpn)) vpns) ->
  exists vpn r, In vpn vpns /\ In r (ipv4Routes vpn) /\ x = f vpn r.
Proof.
  intros H. apply in_flat_map in H. destruct H as (vpn & Hv & H).
  apply in_map_iff in H. destruct H as (r & <- & Hr).
  now exists vpn, r.
Qed.

(** X4.  For every input and both modes, every rule of the
    forward-from-device chain that ends in ACCEPT, VPN rules included,
    matches the device's own subnet as source. *)
Theorem forward_from_accepts_require_own_source (d p : string)
  (vpns : list VPN) (delete : bool) (cmd : Command) :
  In cmd (groupOf ("fwd_input_" +++ d) (ipTableRules d p vpns delete)) ->
  endsWithAccept cmd = true ->
  hasOption "-s" (subnet p) cmd.
Proof.
  rewrite groupOf_fwd_input, forwardInputRules_split.
  intros Hin Hacc. apply in_app_or in Hin. destruct Hin as [Hin | Hin].
  - apply in_map_iff in Hin. destruct Hin as (row & <- & Hrow).
    apply in_vpn_rows in Hrow. destruct Hrow as (vpn & r & _ & _ & ->).
    apply hasOption_prefixed. unfold vpnInputRule. has_option.
  - unfold forwardInputRules, prefixCommands in Hin. cbn [fold_left app] in Hin.
    cbn [In] in Hin.
    repeat (destruct Hin as [<- | Hin];
            [first [discriminate Hacc | has_option] |]).
    contradiction.
Qed.

Lemma forward_from_accepts_require_own_source_witness :
  hasOption "-s" "192.168.50.0/24"
    ["iptables"; "-w"; "3"; "-A"; "fwd_input_tap3"; "-d"; "10.8.0.0";
     "-o"; "tun0"; "-s"; "192.168.50.0/24"; "-j"; "ACCEPT"].
Proof.
  apply (forward_from_accepts_require_own_source
           "tap3" "192.168.50" [vpnMixed] false).
  - vm_compute. auto.
  - reflexivity.
Defined.

(** X5.  For every input and both modes, every rule of the
    forward-to-device chain that ends in ACCEPT either requires the
    connection state RELATED,ESTABLISHED (all VPN rules and the uplink rule
    do) or matches traffic entering through the device itself with the
    device's own subnet as source. *)
Theorem forward_to_accepts_are_replies (d p : string) (vpns : list VPN)
  (delete : bool) (cmd : Command) :
  In cmd (groupOf ("fwd_output_" +++ d) (ipTableRules d p vpns delete)) ->
  endsWithAccept cmd = true ->
  hasOption "--state" "RELATED,ESTABLISHED" cmd
  \/ (hasOption "-i" d cmd /\ hasOption "-s" (subnet p) cmd).
Proof.
  rewrite groupOf_fwd_output, forwardOutputRules_split.
  intros Hin Hacc. apply in_app_or in Hin. destruct Hin as [Hin | Hin].
  - left. apply in_map_iff in Hin. destruct Hin as (row & <- & Hrow).
    apply in_vpn_rows in Hrow. destruct Hrow as (vpn & r & _ & _ & ->).
    apply hasOption_prefixed. unfold vpnOutputRule. has_option.
  - unfold forwardOutputRules, prefixCommands in Hin. cbn [fold_left app] in Hin.
    cbn [In] in Hin.
    repeat (destruct Hin as [<- | Hin];
            [first [ discriminate Hacc
                   | left; solve [has_option]
                   | right; split; solve [has_option] ] |]).
    contradiction.
Qed.

Lemma forward_to_accepts_are_replies_witness :
  let cmd := ["iptables"; "-w"; "3"; "-D"; "fwd_output_tap3"; "-i"; "tap3";
              "-s"; "192.168.50.0/24"; "-j"; "ACCEPT"] in
  hasOption "--state" "RELATED,ESTABLISHED" cmd
  \/ (hasOption "-i" "tap3" cmd /\ hasOption "-s" "192.168.50.0/24" cmd).
Proof.
  cbv zeta.
  apply (forward_to_accepts_are_replies "tap3" "192.168.50" [vpnMixed] true).
  - vm_compute. auto 20.
  - reflexivity.
Defined.

(** X6.  For every input and both modes, every rule of the inbound-filter
    chain that ends in ACCEPT opens one of three services only: TCP port 80
    of the metadata address from the device's subnet, port 53 of the
    device's gateway from the device's subnet, or DHCP (UDP from port 68 to
    port 67). *)
Theorem inbound_accepts_open_three_services (d p : string) (vpns : list VPN)
  (delete : bool) (cmd : Command) :
  In cmd (groupOf ("input_" +++ d) (ipTableRules d p vpns delete)) ->
  endsWithAccept cmd = true ->
  (hasOption "-p" "tcp" cmd /\ hasOption "-s" (subnet p) cmd
   /\ hasOption "-d" metaDataIP cmd /\ hasOption "--dport" "80" cmd)
  \/ (hasOption "-s" (subnet p) cmd /\ hasOption "-d" (gateway p) cmd
      /\ hasOption "--dport" "53" cmd)
  \/ (hasOption "-p" "udp" cmd /\ hasOption "--sport" "68" cmd
      /\ hasOption "--dport" "67" cmd).
Proof.
  rewrite groupOf_input. intros Hin Hacc.
  unfold inputRules, prefixCommands in Hin. cbn [fold_left app In] in Hin.
  repeat (destruct Hin as [<- | Hin];
          [first [ discriminate Hacc
                 | left; repeat split; solve [has_option]
                 | right; left; repeat split; solve [has_option]
                 | right; right; repeat split; solve [has_option] ] |]).
  contradiction.
Qed.

Lemma inbound_accepts_open_three_services_witness :
  let cmd := ["iptables"; "-w"; "3"; "-A"; "input_tap3"; "-p"; "udp";
              "-s"; "192.168.50.0/24"; "-d"; "192.168.50.1"; "-m"; "udp";
              "--dport"; "53"; "-m"; "state"; "--state"; "NEW,ESTABLISHED";
              "-j"; "ACCEPT"] in
  (hasOption "-p" "tcp" cmd /\ hasOption "-s" "192.168.50.0/24" cmd
   /\ hasOption "-d" "169.254.169.254" cmd /\ hasOption "--dport" "80" cmd)
  \/ (hasOption "-s" "192.168.50.0/24" cmd /\ hasOption "-d" "192.168.50.1" cmd
      /\ hasOption "--dport" "53" cmd)
  \/ (hasOption "-p" "udp" cmd /\ hasOption "--sport" "68" cmd
      /\ hasOption "--dport" "67" cmd).
Proof.
  cbv zeta.
  apply (inbound_accepts_open_three_services "tap3" "192.168.50" [] false).
  - vm_compute. auto 20.
  - reflexivity.
Defined.

(** X7.  For every input and both modes, every rule of the outbound-filter
    chain that ends in ACCEPT lets through replies only: from port 80 of the
    metadata address or from port 53 of the gateway, to the device's subnet
    and in state ESTABLISHED, or DHCP replies of the gateway (UDP from port
    67 to port 68). *)
Theorem outbound_accepts_are_replies (d p : string) (vpns : list VPN)
  (delete : bool) (cmd : Command) :
  In cmd (groupOf ("output_" +++ d) (ipTableRules d p vpns delete)) ->
  endsWithAccept cmd = true ->
  (hasOption "-s" metaDataIP cmd /\ hasOption "--sport" "80" cmd
   /\ hasOption "-d" (subnet p) cmd /\ hasOption "--state" "ESTABLISHED" cmd)
  \/ (hasOption "-s" (gateway p) cmd /\ hasOption "--sport" "53" cmd
      /\ hasOption "-d" (subnet p) cmd /\ hasOption "--state" "ESTABLISHED" cmd)
  \/ (hasOption "-p" "udp" cmd /\ hasOption "-s" (gateway p) cmd
      /\ hasOption "--sport" "67" cmd /\ hasOption "--dport" "68" cmd).
Proof.
  rewrite groupOf_output. intros Hin Hacc.
  unfold outputRules, prefixCommands in Hin. cbn [fold_left app In] in Hin.
  repeat (destruct Hin as [<- | Hin];
          [first [ discriminate Hacc
                 | left; repeat split; solve [has_option]
                 | right; left; repeat split; solve [has_option]
                 | right; right; repeat split; solve [has_option] ] |]).
  contradiction.
Qed.

Lemma outbound_accepts_are_replies_witness :
  let cmd := ["iptables"; "-w"; "3"; "-A"; "output_tap3"; "-p"; "udp";
              "-s"; "192.168.50.1"; "-m"; "udp"; "--sport"; "67";
              "--dport"; "68"; "-j"; "ACCEPT"] in
  (hasOption "-s" "169.254.169.254" cmd /\ hasOption "--sport" "80" cmd
   /\ hasOption "-d" "192.168.50.0/24" cmd /\ hasOption "--state" "ESTABLISHED" cmd)
  \/ (hasOption "-s" "192.168.50.1" cmd /\ hasOption "--sport" "53" cmd
      /\ hasOption "-d" "192.168.50.0/24" cmd /\ hasOption "--state" "ESTABLISHED" cmd)
  \/ (hasOption "-p" "udp" cmd /\ hasOption "-s" "192.168.50.1" cmd
      /\ hasOption "--sport" "67" cmd /\ hasOption "--dport" "68" cmd).
Proof.
  cbv zeta.
  apply (outbound_accepts_are_replies "tap3" "192.168.50" [] false).
  - vm_compute. auto 20.
  - reflexivity.
Defined.

(** ** Connections without usable routes, and the two forms of an address *)

Lemma vpn_rules_of_unroutable (sn : string) (vpns1 vpns2 : list VPN) (vpn : VPN) :
  ipv4Routes vpn = [] ->
  vpnInputRulesOf sn (vpns1 ++ vpn :: vpns2) = vpnInputRulesOf sn (vpns1 ++ vpns2)
  /\ vpnOutputRulesOf sn (vpns1 ++ vpn :: vpns2)
     = vpnOutputRulesOf sn (vpns1 ++ vpns2).
Proof.
  intros H. unfold vpnInputRulesOf, vpnOutputRulesOf.
  rewrite !flat_map_app. cbn [flat_map]. rewrite H. split; reflexivity.
Qed.

Lemma ipTableRules_vpn_rules (d p : string) (vpns vpns' : list VPN)
  (delete : bool) :
  vpnInputRulesOf (subnet p) vpns = vpnInputRulesOf (subnet p) vpns' ->
  vpnOutputRulesOf (subnet p) vpns = vpnOutputRulesOf (subnet p) vpns' ->
  ipTableRules d p vpns delete = ipTableRules d p vpns' delete.
Proof.
  intros Hi Ho. unfold ipTableRules, ipTableRulesLogged.
  destruct delete;
    [rewrite !ruleSetFor_uninstall | rewrite !ruleSetFor_install];
    now rewrite Hi, Ho.
Qed.

(** X8.  A VPN connection none of whose routes [To4] accepts (no route at
    all, or IPv6 routes only) leaves the RuleSet as it is without that
    connection, wherever it stands in the list. *)
Theorem unroutable_connection_is_ignored (d p : string)
  (vpns1 vpns2 : list VPN) (vpn : VPN) (delete : bool) :
  (forall ip, In ip (Routes vpn) -> Net.To4 ip = None) ->
  ipTableRules d p (vpns1 ++ vpn :: vpns2) delete
  = ipTableRules d p (vpns1 ++ vpns2) delete.
Proof.
  intros Hnone.
  assert (H : ipv4Routes vpn = []).
  { unfold ipv4Routes. induction (Routes vpn) as [|ip routes IH]; [reflexivity|].
    simpl. rewrite (Hnone ip) by (left; reflexivity). simpl.
    apply IH. intros ip' Hip'. apply Hnone. right. exact Hip'. }
  destruct (vpn_rules_of_unroutable (subnet p) vpns1 vpns2 vpn H) as [Hi Ho].
  now apply ipTableRules_vpn_rules.
Qed.

Lemma unroutable_connection_is_ignored_witness :
  ipTableRules "tap3" "192.168.50"
    ([vpnMixed] ++ mkVPN "tun6" [[x20; x01; x0d; xb8; x00; x00; x00; x00;
                                  x00; x00; x00; x00; x00; x00; x00; x02]; []]
                :: []) true
  = ipTableRules "tap3" "192.168.50" ([vpnMixed] ++ []) true.
Proof.
  apply unroutable_connection_is_ignored.
  intros ip [<- | [<- | []]]; reflexivity.
Defined.

Lemma To4_mapped (a b c d : byte) :
  Net.To4 (mappedIPv4 a b c d) = Some (a, b, c, d)
  /\ Net.To4 [a; b; c; d] = Some (a, b, c, d).
Proof. split; reflexivity. Qed.

(** X9.  A route given in the 16-byte form [::ffff:a.b.c.d] generates the
    same rules as the same route in 4-byte form, wherever it stands among
    the routes of its connection. *)
Theorem mapped_route_is_the_ipv4_route (d p dev : string)
  (vpns1 vpns2 : list VPN) (routes1 routes2 : list Net.IP)
  (a b c e : byte) (delete : bool) :
  ipTableRules d p
    (vpns1 ++ mkVPN dev (routes1 ++ mappedIPv4 a b c e :: routes2) :: vpns2)
    delete
  = ipTableRules d p
      (vpns1 ++ mkVPN dev (routes1 ++ [a; b; c; e] :: routes2) :: vpns2)
      delete.
Proof.
  assert (H : ipv4Routes (mkVPN dev (routes1 ++ mappedIPv4 a b c e :: routes2))
              = ipv4Routes (mkVPN dev (routes1 ++ [a; b; c; e] :: routes2))).
  { unfold ipv4Routes. cbn [Routes]. rewrite !flat_map_app. cbn [flat_map].
    destruct (To4_mapped a b c e) as [-> ->]. reflexivity. }
  apply ipTableRules_vpn_rules;
    unfold vpnInputRulesOf, vpnOutputRulesOf;
    rewrite !flat_map_app; cbn [flat_map DeviceName]; now rewrite H.
Qed.

(** ** Tables, verbs and chains *)

Lemma filter_prefixed_none (f : Command -> bool) (prefix : list string)
  (rows : list (list string)) :
  (forall row, f (prefix ++ row) = false) ->
  filter f (prefixCommands prefix rows) = [].
Proof.
  intros H. rewrite prefixCommands_map.
  induction rows as [|row rows IH]; [reflexivity|].
  simpl map. simpl filter. now rewrite H, IH.
Qed.

Lemma parse_rule_command (ra chain : string) (row : list string) :
  ra = "-A" \/ ra = "-D" ->
  parse (["iptables"; "-w"; xtableLockWait; ra; chain] ++ row)
  = Some (mkParsed None ra chain row).
Proof. intros [-> | ->]; reflexivity. Qed.

(** X10.  For every input and both modes, every command of the RuleSet has
    the shape [iptables -w 3 [-t table] verb chain ...]; its verb is the
    rule verb or the chain verb of the mode ([-A]/[-N] for install,
    [-D]/[-X] for uninstall); and the NAT command is the only one that
    selects a table. *)
Theorem only_nat_command_selects_table (d p : string) (vpns : list VPN)
  (delete : bool) :
  filter selectsTable (ipTableRules d p vpns delete)
  = natRules (subnet p) (ruleAction delete)
  /\ Forall (fun cmd => exists q, parse cmd = Some q
                        /\ (verb q = ruleAction delete
                            \/ verb q = chainAction delete))
            (ipTableRules d p vpns delete).
Proof.
  rewrite ipTableRules_groups, groups_eq.
  assert (Hnone : forall chain row,
            selectsTable (["iptables"; "-w"; xtableLockWait; ruleAction delete;
                           chain] ++ row) = false).
  { intros chain row. unfold selectsTable.
    now rewrite parse_rule_command by apply ruleAction_cases. }
  split.
  - destruct delete; cbn [rev app List.concat]; rewrite !filter_app;
      unfold inputRules, outputRules, forwardInputRules, forwardOutputRules;
      rewrite !filter_prefixed_none by apply Hnone;
      reflexivity.
  - assert (Hrule : forall chain rows,
              Forall (fun cmd => exists q, parse cmd = Some q
                                 /\ (verb q = ruleAction delete
                                     \/ verb q = chainAction delete))
                     (prefixCommands ["iptables"; "-w"; xtableLockWait;
                                      ruleAction delete; chain] rows)).
    { intros chain rows. apply prefixCommands_Forall. intros row.
      rewrite parse_rule_command by apply ruleAction_cases.
      eexists. split; [reflexivity | left; reflexivity]. }
    destruct delete; cbn [rev app List.concat]; split_groups;
      try apply Forall_nil; try apply Hrule;
      unfold natRules, chains, rules, prefixCommands; cbn [fold_left app];
      repeat (apply Forall_cons;
              [eexists; split; [reflexivity | cbn; auto] |]);
      apply Forall_nil.
Qed.

Lemma deviceChains_disjoint (d1 d2 c : string) :
  d1 <> d2 -> In c (deviceChains d1) -> ~ In c (deviceChains d2).
Proof.
  intros Hne H1 H2. unfold deviceChains in H1, H2. cbn in H1, H2.
  destruct H1 as [<- | [<- | [<- | [<- | []]]]];
    destruct H2 as [H2 | [H2 | [H2 | [H2 | []]]]];
    congruence.
Qed.

(** X11.  RuleSets built for two different device names, whatever the
    prefixes, VPN connections and modes, create or destroy disjoint sets of
    chains. *)
Theorem distinct_devices_have_disjoint_chains (d1 d2 p1 p2 : string)
  (vpns1 vpns2 : list VPN) (delete1 delete2 : bool) (c : string) :
  d1 <> d2 ->
  In c (managedChains (ipTableRules d1 p1 vpns1 delete1)) ->
  ~ In c (managedChains (ipTableRules d2 p2 vpns2 delete2)).
Proof.
  intros Hne. rewrite !managedChains_ruleset.
  now apply deviceChains_disjoint.
Qed.

Lemma distinct_devices_have_disjoint_chains_witness :
  ~ In "fwd_input_tap3"
       (managedChains (ipTableRules "tap30" "192.168.50" [vpnMixed] true)).
Proof.
  apply (distinct_devices_have_disjoint_chains
           "tap3" "tap30" "192.168.50" "192.168.50" [] [vpnMixed] false true).
  - discriminate.
  - vm_compute. auto.
Defined.

(** X12.  For every input, the chains the RuleSet creates (install) or
    destroys (uninstall) are exactly the four chains named after the device,
    each once and in the same order; they are pairwise different; an
    uninstall RuleSet creates no chain and an install RuleSet destroys
    none. *)
Theorem four_chains_per_device (d p : string) (vpns : list VPN) :
  NoDup (deviceChains d)
  /\ map (fun c => ["iptables"; "-w"; xtableLockWait; "-N"; c]) (deviceChains d)
     = filter isChainCreation (ipTableRules d p vpns false)
  /\ managedChains (ipTableRules d p vpns false) = deviceChains d
  /\ managedChains (ipTableRules d p vpns true) = deviceChains d
  /\ filter isChainCreation (ipTableRules d p vpns true) = [].
Proof.
  assert (Hnone : forall ra chain row, ra = "-A" \/ ra = "-D" ->
            isChainCreation (["iptables"; "-w"; xtableLockWait; ra; chain] ++ row)
            = false).
  { intros ra chain row Hra. unfold isChainCreation.
    rewrite parse_rule_command by exact Hra. destruct Hra as [-> | ->]; reflexivity. }
  split.
  { unfold deviceChains. repeat constructor; cbn; intuition congruence. }
  rewrite !managedChains_ruleset.
  repeat split.
  - rewrite ipTableRules_install, groups_eq. cbn [List.concat ruleAction chainAction].
    rewrite !filter_app.
    unfold inputRules, outputRules, forwardInputRules, forwardOutputRules.
    rewrite !filter_prefixed_none by (intros row; apply Hnone; auto).
    reflexivity.
  - rewrite ipTableRules_uninstall, groups_eq.
    cbn [rev app List.concat ruleAction chainAction].
    rewrite !filter_app.
    unfold inputRules, outputRules, forwardInputRules, forwardOutputRules.
    rewrite !filter_prefixed_none by (intros row; apply Hnone; auto).
    reflexivity.
Qed.

(** * Properties of the task context *)

Section TaskContextProperties.

Variables Time Queue Other File : Type.
Variable formatOther : Other -> string.

Local Notation "'Ctx'" := (Runtime.TaskContext Time Queue).
Local Notation "'Calls'" := (list (@Runtime.Call Queue Other File)).
Local Notation "'run'" := (Runtime.run formatOther).
Local Notation "'step'" := (Runtime.step formatOther).

Lemma run_cons (c : Ctx) (call : @Runtime.Call Queue Other File) (rest : Calls)
  (c'' : Ctx) (out'' : list Runtime.OutsideCall) :
  run c (call :: rest) = Some (c'', out'') ->
  exists c' out out',
    step c call = Some (c', out)
    /\ run c' rest = Some (c'', out')
    /\ out'' = out ++ out'.
Proof.
  simpl. destruct (step c call) as [[c' out]|] eqn:Hs; [|discriminate].
  destruct (run c' rest) as [[c2 out']|] eqn:Hr; [|discriminate].
  intros H. injection H as <- <-. exists c', out, out'.
  repeat split; assumption.
Qed.

Lemma step_dispose (c c' : Ctx) (removed : option (option Runtime.Error))
  (out : list Runtime.OutsideCall) :
  step c (@Runtime.CallDispose Queue Other File removed) = Some (c', out) ->
  c' = c /\ out = [Runtime.StreamRemove]
  /\ Runtime.logClosed c = true /\ removed <> None.
Proof.
  simpl. unfold Runtime.Dispose.
  destruct (Runtime.logClosed c); [|discriminate].
  destruct removed as [e|]; [|discriminate].
  intros H. injection H as <- <-. repeat split. discriminate.
Qed.

Lemma step_Live (c c' : Ctx) (call : @Runtime.Call Queue Other File)
  (out : list Runtime.OutsideCall) :
  Runtime.Live c -> step c call = Some (c', out) -> Runtime.Live c'.
Proof.
  unfold Runtime.Live. intros HL Hs.
  destruct call;
    try (apply step_dispose in Hs; destruct Hs as (-> & _); exact HL);
    simpl in Hs;
    try (injection Hs as <- <-; exact HL).
  - unfold Runtime.CloseLog in Hs. destruct (Runtime.logClosed c);
      injection Hs as <- <-; exact HL.
  - unfold Runtime.Abort, Runtime.setStatus in Hs.
    destruct HL as [[Hd _] | [Hd _]]; rewrite Hd in Hs; simpl in Hs;
      injection Hs as <- <-; simpl; auto.
  - unfold Runtime.Cancel, Runtime.setStatus in Hs.
    destruct HL as [[Hd _] | [Hd _]]; rewrite Hd in Hs; simpl in Hs;
      injection Hs as <- <-; simpl; auto.
Qed.

Lemma step_progress (c : Ctx) (call : @Runtime.Call Queue Other File) :
  Runtime.Live c ->
  (Runtime.isDispose call = false -> exists c' out, step c call = Some (c', out))
  /\ (forall removed, call = Runtime.CallDispose removed ->
      ((exists c' out, step c call = Some (c', out))
       <-> Runtime.logClosed c = true /\ removed <> None)).
Proof.
  unfold Runtime.Live. intros HL. split.
  - intros Hnd. destruct call; try discriminate Hnd; simpl;
      try (eexists; eexists; reflexivity).
    + destruct (Runtime.CloseLog c closeErr) as [[c' e] out]. now exists c', out.
    + unfold Runtime.Abort, Runtime.setStatus.
      destruct HL as [[Hd _] | [Hd _]]; rewrite Hd; simpl;
        eexists; eexists; reflexivity.
    + unfold Runtime.Cancel, Runtime.setStatus.
      destruct HL as [[Hd _] | [Hd _]]; rewrite Hd; simpl;
        eexists; eexists; reflexivity.
  - intros removed ->. split.
    + intros (c' & out & Hs). apply step_dispose in Hs. tauto.
    + intros [Hclosed Hret]. simpl. unfold Runtime.Dispose. rewrite Hclosed.
      destruct removed as [e|]; [|now elim Hret].
      eexists; eexists; reflexivity.
Qed.

Lemma run_Live (calls : Calls) (c c' : Ctx) (out : list Runtime.OutsideCall) :
  Runtime.Live c -> run c calls = Some (c', out) -> Runtime.Live c'.
Proof.
  revert c out. induction calls as [|call rest IH]; intros c out HL Hr.
  - simpl in Hr. injection Hr as <- <-. exact HL.
  - apply run_cons in Hr. destruct Hr as (c1 & o1 & o2 & Hs & Hr & _).
    exact (IH _ _ (step_Live _ _ _ _ HL Hs) Hr).
Qed.

Lemma step_fixed_fields (c c' : Ctx) (call : @Runtime.Call Queue Other File)
  (out : list Runtime.OutsideCall) :
  step c call = Some (c', out) ->
  Runtime.logLocation c' = Runtime.logLocation c
  /\ Runtime.info c' = Runtime.info c.
Proof.
  intros Hs. destruct call;
    try (apply step_dispose in Hs; destruct Hs as (-> & _); now split);
    simpl in Hs;
    try (injection Hs as <- <-; now split).
  - unfold Runtime.CloseLog in Hs. destruct (Runtime.logClosed c);
      injection Hs as <- <-; now split.
  - unfold Runtime.Abort, Runtime.setStatus in Hs.
    destruct (Runtime.closeOnce (Runtime.done c)); simpl in Hs;
      [injection Hs as <- <-; now split | discriminate].
  - unfold Runtime.Cancel, Runtime.setStatus in Hs.
    destruct (Runtime.closeOnce (Runtime.done c)); simpl in Hs;
      [injection Hs as <- <-; now split | discriminate].
Qed.

Lemma run_fixed_fields (calls : Calls) (c c' : Ctx)
  (out : list Runtime.OutsideCall) :
  run c calls = Some (c', out) ->
  Runtime.logLocation c' = Runtime.logLocation c
  /\ Runtime.info c' = Runtime.info c.
Proof.
  revert c out. induction calls as [|call rest IH]; intros c out Hr.
  - simpl in Hr. injection Hr as <- <-. now split.
  - apply run_cons in Hr. destruct Hr as (c1 & o1 & o2 & Hs & Hr & _).
    destruct (step_fixed_fields _ _ _ _ Hs) as [<- <-]. exact (IH _ _ Hr).
Qed.

Lemma Live_contract (c : Ctx) :
  Runtime.Live c ->
  (Runtime.Done c = Runtime.ClosedChan
   <-> Runtime.Err c = Some Runtime.ContextCanceled)
  /\ (Runtime.Done c = Runtime.OpenChan <-> Runtime.Err c = None)
  /\ (Runtime.Err c = Some Runtime.ContextCanceled
      <-> Runtime.IsAborted c = true \/ Runtime.IsCancelled c = true)
  /\ Runtime.IsAborted c && Runtime.IsCancelled c = false.
Proof.
  unfold Runtime.Live, Runtime.Done, Runtime.Err, Runtime.IsAborted,
    Runtime.IsCancelled.
  intros [[-> ->] | [-> [-> | ->]]]; cbn; intuition (auto; discriminate).
Qed.

Lemma step_status (c c' : Ctx) (call : @Runtime.Call Queue Other File)
  (out : list Runtime.OutsideCall) :
  step c call = Some (c', out) ->
  Runtime.status c' = Runtime.lastVerdict [call] (Runtime.status c)
  /\ (Runtime.done c = Runtime.ClosedChan -> Runtime.done c' = Runtime.ClosedChan).
Proof.
  intros Hs. destruct call;
    try (apply step_dispose in Hs; destruct Hs as (-> & _); now split);
    simpl in Hs |- *;
    try (injection Hs as <- <-; now split).
  - unfold Runtime.CloseLog in Hs. destruct (Runtime.logClosed c);
      injection Hs as <- <-; now split.
  - unfold Runtime.Abort, Runtime.setStatus in Hs.
    destruct (Runtime.done c); simpl in Hs;
      [discriminate | injection Hs as <- <-; now split
      | injection Hs as <- <-; now split].
  - unfold Runtime.Cancel, Runtime.setStatus in Hs.
    destruct (Runtime.done c); simpl in Hs;
      [discriminate | injection Hs as <- <-; now split
      | injection Hs as <- <-; now split].
Qed.

Lemma lastVerdict_cons (call : @Runtime.Call Queue Other File) (rest : Calls)
  (st : Runtime.TaskStatus) :
  Runtime.lastVerdict (call :: rest) st
  = Runtime.lastVerdict rest (Runtime.lastVerdict [call] st).
Proof. destruct call; reflexivity. Qed.

Lemma run_status (calls : Calls) (c c' : Ctx) (out : list Runtime.OutsideCall) :
  run c calls = Some (c', out) ->
  Runtime.status c' = Runtime.lastVerdict calls (Runtime.status c)
  /\ (Runtime.done c = Runtime.ClosedChan -> Runtime.done c' = Runtime.ClosedChan).
Proof.
  revert c out. induction calls as [|call rest IH]; intros c out Hr.
  - simpl in Hr. injection Hr as <- <-. now split.
  - apply run_cons in Hr. destruct Hr as (c1 & o1 & o2 & Hs & Hr & _).
    destruct (step_status _ _ _ _ Hs) as [Hst Hd].
    destruct (IH _ _ Hr) as [Hst' Hd'].
    rewrite lastVerdict_cons, <- Hst. split; [exact Hst' | auto].
Qed.

Lemma lastVerdict_final (calls : Calls) (st : Runtime.TaskStatus) :
  st = Runtime.Aborted \/ st = Runtime.Cancelled ->
  Runtime.lastVerdict calls st = Runtime.Aborted
  \/ Runtime.lastVerdict calls st = Runtime.Cancelled.
Proof.
  revert st. induction calls as [|call rest IH]; intros st Hst; [exact Hst|].
  destruct call; simpl; apply IH; auto.
Qed.

(** X14.  Cancellation is permanent: once [Err] returns [context.Canceled]
    it does so after every further sequence of calls, and a closed [Done]
    channel stays closed. *)
Theorem cancellation_is_permanent (c c' : Ctx) (calls : Calls)
  (out : list Runtime.OutsideCall) :
  run c calls = Some (c', out) ->
  Runtime.Err c = Some Runtime.ContextCanceled ->
  Runtime.Err c' = Some Runtime.ContextCanceled
  /\ (Runtime.Done c = Runtime.ClosedChan -> Runtime.Done c' = Runtime.ClosedChan).
Proof.
  intros Hr Herr. destruct (run_status _ _ _ _ Hr) as [Hst Hd].
  split; [|exact Hd].
  unfold Runtime.Err in Herr |- *.
  assert (Hc : Runtime.status c = Runtime.Aborted
               \/ Runtime.status c = Runtime.Cancelled).
  { destruct (Runtime.status c =? Runtime.Aborted) eqn:Ea.
    - left. now apply String.eqb_eq.
    - destruct (Runtime.status c =? Runtime.Cancelled) eqn:Ec; [|discriminate].
      right. now apply String.eqb_eq. }
  destruct (lastVerdict_final calls _ Hc) as [H | H];
    rewrite Hst, H; reflexivity.
Qed.

(** X15.  After any sequence of calls the status is the one set by the most
    recent [Abort] or [Cancel] among them, and the status before the calls if
    there is none: a later [Cancel] overrides an [Abort] and conversely, and
    no other call touches the status. *)
Theorem last_verdict_wins (c c' : Ctx) (calls : Calls)
  (out : list Runtime.OutsideCall) :
  run c calls = Some (c', out) ->
  Runtime.status c' = Runtime.lastVerdict calls (Runtime.status c)
  /\ Runtime.IsAborted c'
     = (Runtime.lastVerdict calls (Runtime.status c) =? Runtime.Aborted)
  /\ Runtime.IsCancelled c'
     = (Runtime.lastVerdict calls (Runtime.status c) =? Runtime.Cancelled).
Proof.
  intros Hr. destruct (run_status _ _ _ _ Hr) as [Hst _].
  unfold Runtime.IsAborted, Runtime.IsCancelled. rewrite Hst.
  repeat split.
Qed.

Lemma step_log (c c' : Ctx) (call : @Runtime.Call Queue Other File)
  (out : list Runtime.OutsideCall) :
  step c call = Some (c', out) ->
  Runtime.logClosed c' = Runtime.logClosed c || Runtime.isCloseLog call
  /\ List.length (filter Runtime.isStreamClose out)
     = (if Runtime.logClosed c then 0
        else if Runtime.isCloseLog call then 1 else 0).
Proof.
  intros Hs. destruct call;
    try (apply step_dispose in Hs; destruct Hs as (-> & -> & -> & _);
         split; reflexivity);
    simpl in Hs |- *;
    unfold Runtime.CloseLog, Runtime.Abort, Runtime.Cancel, Runtime.setStatus,
      Runtime.ExtractLog in Hs;
    try (destruct (Runtime.closeOnce (Runtime.done c)); simpl in Hs;
         [|discriminate]);
    destruct (Runtime.logClosed c) eqn:E;
    injection Hs as <- <-; cbn; rewrite ?E; split; reflexivity.
Qed.

Lemma run_log (calls : Calls) (c c' : Ctx) (out : list Runtime.OutsideCall) :
  run c calls = Some (c', out) ->
  Runtime.logClosed c'
  = Runtime.logClosed c || existsb Runtime.isCloseLog calls
  /\ List.length (filter Runtime.isStreamClose out)
     = (if Runtime.logClosed c then 0
        else if existsb Runtime.isCloseLog calls then 1 else 0).
Proof.
  revert c out. induction calls as [|call rest IH]; intros c out Hr.
  - simpl in Hr. injection Hr as <- <-. simpl. rewrite orb_false_r.
    destruct (Runtime.logClosed c); split; reflexivity.
  - apply run_cons in Hr. destruct Hr as (c1 & o1 & o2 & Hs & Hr & ->).
    destruct (step_log _ _ _ _ Hs) as [Hc1 Hn1].
    destruct (IH _ _ Hr) as [Hc2 Hn2].
    rewrite filter_app, length_app, Hn1, Hn2, Hc2, Hc1. simpl existsb.
    destruct (Runtime.logClosed c), (Runtime.isCloseLog call),
      (existsb Runtime.isCloseLog rest); split; reflexivity.
Qed.

(** X16.  Over any sequence of calls the log stream is closed at most once:
    [logStream.Close] is called by the first [CloseLog] only, whatever it
    reports, and never if the log was already closed; afterwards the log
    counts as closed. *)
Theorem log_stream_closed_at_most_once (c c' : Ctx) (calls : Calls)
  (out : list Runtime.OutsideCall) :
  run c calls = Some (c', out) ->
  List.length (filter Runtime.isStreamClose out)
  = (if Runtime.logClosed c then 0
     else if existsb Runtime.isCloseLog calls then 1 else 0)
  /\ Runtime.logClosed c'
     = Runtime.logClosed c || existsb Runtime.isCloseLog calls
  /\ (Runtime.logClosed c' = true ->
      forall closeErr, Runtime.CloseLog c' closeErr = (c', None, [])).
Proof.
  intros Hr. destruct (run_log _ _ _ _ Hr) as [Hc Hn].
  split; [exact Hn|]. split; [exact Hc|].
  intros Hclosed closeErr. unfold Runtime.CloseLog. now rewrite Hclosed.
Qed.

(** X17.  For a context made by [NewTaskContext] and any sequence of calls
    after it, [ExtractLog] returns [ErrLogNotClosed], without touching the
    file system, exactly when no [CloseLog] was among the calls; otherwise it
    opens the file whose path was given to [NewTaskContext] and returns what
    [os.Open] returns, also when closing the stream had failed. *)
Theorem extract_log_needs_closed_log (tempLogFile : string)
  (task : Runtime.TaskInfo Time) (c c' : Ctx) (calls : Calls)
  (out : list Runtime.OutsideCall) (opened : Runtime.Error + File) :
  Runtime.NewTaskContext tempLogFile task None = inr c ->
  run c calls = Some (c', out) ->
  Runtime.ExtractLog c' opened
  = if existsb Runtime.isCloseLog calls
    then (opened, [Runtime.OsOpen tempLogFile])
    else (inl Runtime.ErrLogNotClosed, []).
Proof.
  intros Hnew Hr. injection Hnew as <-.
  destruct (run_log _ _ _ _ Hr) as [Hc _].
  destruct (run_fixed_fields _ _ _ _ Hr) as [Hloc _].
  simpl in Hc, Hloc. unfold Runtime.ExtractLog. rewrite Hc, Hloc.
  destruct (existsb Runtime.isCloseLog calls); reflexivity.
Qed.




(** X13.  For a context made by [NewTaskContext], after any sequence of
    calls that has completed: the log location and the task information are
    those it was made with; the contract of [context.Context] holds ([Done]
    is closed exactly when [Err] returns [context.Canceled], which is
    exactly when the task is aborted or cancelled, and it is never both);
    every further call other than [Dispose] returns, so [Abort] and
    [Cancel] never close the channel twice; and a further [Dispose] returns
    exactly when a [CloseLog] was among the calls and the removal of the
    stream returns. *)
Theorem task_context_contract (tempLogFile : string)
  (task : Runtime.TaskInfo Time) (c c' : Ctx) (calls : Calls)
  (out : list Runtime.OutsideCall) :
  Runtime.NewTaskContext tempLogFile task None = inr c ->
  run c calls = Some (c', out) ->
  Runtime.logLocation c' = tempLogFile
  /\ Runtime.info c' = task
  /\ (Runtime.Done c' = Runtime.ClosedChan
      <-> Runtime.Err c' = Some Runtime.ContextCanceled)
  /\ (Runtime.Done c' = Runtime.OpenChan <-> Runtime.Err c' = None)
  /\ (Runtime.Err c' = Some Runtime.ContextCanceled
      <-> Runtime.IsAborted c' = true \/ Runtime.IsCancelled c' = true)
  /\ Runtime.IsAborted c' && Runtime.IsCancelled c' = false
  /\ (forall call : @Runtime.Call Queue Other File,
        Runtime.isDispose call = false ->
        exists c'' out', step c' call = Some (c'', out'))
  /\ (forall removed,
        (exists c'' out',
            step c' (@Runtime.CallDispose Queue Other File removed)
            = Some (c'', out'))
        <-> existsb Runtime.isCloseLog calls = true /\ removed <> None).
Proof.
  intros Hnew Hr. injection Hnew as <-.
  assert (HL : Runtime.Live c').
  { refine (run_Live _ _ _ _ _ Hr). left. split; reflexivity. }
  destruct (run_fixed_fields _ _ _ _ Hr) as [Hloc Hinfo].
  destruct (run_log _ _ _ _ Hr) as [Hclosed _]. simpl in Hclosed.
  split; [exact Hloc|]. split; [exact Hinfo|].
  destruct (Live_contract c' HL) as (H1 & H2 & H3 & H4).
  repeat (split; [assumption|]). split.
  - intros call Hnd. exact (proj1 (step_progress c' call HL) Hnd).
  - intros removed. rewrite <- Hclosed.
    exact (proj2 (step_progress c' _ HL) removed eq_refl).
Qed.

End TaskContextProperties.

Lemma task_context_contract_witness :
  exists c' out,
    Runtime.run exampleFormat exampleContext exampleCalls = Some (c', out)
    /\ Runtime.logLocation c' = "/tmp/abc.log"
    /\ Runtime.info c' = exampleTask
    /\ (Runtime.Done c' = Runtime.ClosedChan
        <-> Runtime.Err c' = Some Runtime.ContextCanceled)
    /\ (Runtime.Done c' = Runtime.OpenChan <-> Runtime.Err c' = None)
    /\ (Runtime.Err c' = Some Runtime.ContextCanceled
        <-> Runtime.IsAborted c' = true \/ Runtime.IsCancelled c' = true)
    /\ Runtime.IsAborted c' && Runtime.IsCancelled c' = false
    /\ (forall call : @Runtime.Call string nat string,
          Runtime.isDispose call = false ->
          exists c'' out', Runtime.step exampleFormat c' call = Some (c'', out'))
    /\ (forall removed,
          (exists c'' out',
              Runtime.step exampleFormat c'
                (@Runtime.CallDispose string nat string removed)
              = Some (c'', out'))
          <-> existsb Runtime.isCloseLog exampleCalls = true /\ removed <> None).
Proof.
  eexists. eexists. split; [reflexivity|].
  eapply (task_context_contract unit string nat string exampleFormat
            "/tmp/abc.log" exampleTask exampleContext _ exampleCalls);
    reflexivity.
Defined.

(** [Dispose] before [CloseLog] does not return; after it, it does. *)
Lemma dispose_waits_for_close_log :
  Runtime.run exampleFormat exampleContext
    [@Runtime.CallDispose string nat string (Some None)] = None
  /\ exists c' out,
       Runtime.run exampleFormat exampleContext
         [Runtime.CallCloseLog None;
          @Runtime.CallDispose string nat string (Some None)]
       = Some (c', out).
Proof. split; [reflexivity | eexists; eexists; reflexivity]. Qed.

Lemma cancellation_is_permanent_witness :
  exists c' out,
    Runtime.run exampleFormat exampleAborted exampleCalls = Some (c', out)
    /\ Runtime.Err c' = Some Runtime.ContextCanceled
    /\ (Runtime.Done exampleAborted = Runtime.ClosedChan ->
        Runtime.Done c' = Runtime.ClosedChan).
Proof.
  eexists. eexists. split; [reflexivity|].
  eapply (cancellation_is_permanent unit string nat string exampleFormat
            exampleAborted _ exampleCalls); reflexivity.
Defined.

Lemma last_verdict_wins_witness :
  exists c' out,
    Runtime.run exampleFormat exampleContext exampleCalls = Some (c', out)
    /\ Runtime.status c' = Runtime.Cancelled
    /\ Runtime.IsAborted c' = false
    /\ Runtime.IsCancelled c' = true.
Proof.
  eexists. eexists. split; [reflexivity|].
  apply (last_verdict_wins unit string nat string exampleFormat
           exampleContext _ exampleCalls _ eq_refl).
Defined.

Lemma log_stream_closed_at_most_once_witness :
  exists c' out,
    Runtime.run exampleFormat exampleContext exampleCalls = Some (c', out)
    /\ List.length (filter Runtime.isStreamClose out) = 1
    /\ Runtime.logClosed c' = true
    /\ (Runtime.logClosed c' = true ->
        forall closeErr, Runtime.CloseLog c' closeErr = (c', None, [])).
Proof.
  eexists. eexists. split; [reflexivity|].
  apply (log_stream_closed_at_most_once unit string nat string exampleFormat
           exampleContext _ exampleCalls _ eq_refl).
Defined.

Lemma extract_log_needs_closed_log_witness :
  exists c' out,
    Runtime.run exampleFormat exampleContext exampleCalls = Some (c', out)
    /\ Runtime.ExtractLog c' (inr "file")
       = (inr "file", [Runtime.OsOpen "/tmp/abc.log"])
    /\ Runtime.ExtractLog (File := string) exampleContext (inr "file")
       = (inl Runtime.ErrLogNotClosed, []).
Proof.
  eexists. eexists. split; [reflexivity|]. split.
  - apply (extract_log_needs_closed_log unit string nat string exampleFormat
             "/tmp/abc.log" exampleTask exampleContext _ exampleCalls _
             (inr "file") eq_refl eq_refl).
  - apply (extract_log_needs_closed_log unit string nat string exampleFormat
             "/tmp/abc.log" exampleTask exampleContext _ [] _
             (inr "file") eq_refl eq_refl).
Defined.


(** * The VPN routes in the returned RuleSet *)

Lemma ipv4Routes_ipv4Only (vpn : VPN) :
  ipv4Routes (ipv4Only vpn) = ipv4Routes vpn.
Proof.
  unfold ipv4Routes, ipv4Only. cbn [Routes].
  induction (Routes vpn) as [|ip routes IH]; [reflexivity|].
  simpl. destruct (Net.To4 ip) as [r|] eqn:E; simpl; rewrite ?E, IH; reflexivity.
Qed.

Lemma vpn_rules_ipv4Only (sn : string) (vpns : list VPN) :
  vpnInputRulesOf sn (map ipv4Only vpns) = vpnInputRulesOf sn vpns
  /\ vpnOutputRulesOf sn (map ipv4Only vpns) = vpnOutputRulesOf sn vpns.
Proof.
  unfold vpnInputRulesOf, vpnOutputRulesOf.
  induction vpns as [|vpn vpns [IHi IHo]]; [split; reflexivity|].
  cbn [map flat_map]. rewrite IHi, IHo, ipv4Routes_ipv4Only.
  split; reflexivity.
Qed.

Lemma vpn_rows_per_route (sn : string) (vpns : list VPN) :
  vpnInputRulesOf sn vpns
  = flat_map (fun vpn =>
                flat_map (fun ip => match Net.To4 ip with
                                    | Some r => [vpnInputRule sn vpn r]
                                    | None => []
                                    end) (Routes vpn)) vpns
  /\ vpnOutputRulesOf sn vpns
     = flat_map (fun vpn =>
                   flat_map (fun ip => match Net.To4 ip with
                                       | Some r => [vpnOutputRule sn vpn r]
                                       | None => []
                                       end) (Routes vpn)) vpns.
Proof.
  unfold vpnInputRulesOf, vpnOutputRulesOf.
  split; apply flat_map_ext; intros vpn; symmetry; apply per_route_rules.
Qed.

(** C6.  For every input and both modes, the returned RuleSet holds, in its
    forward-from-device group and in its forward-to-device group, for each
    connection in turn and each of its routes in turn, exactly one rule when
    [To4] accepts the route and none when it does not, followed by the seven
    fixed rules of the group; the RuleSet is the one obtained from the same
    connections with the rejected routes left out; the loop that builds the
    rules records each rejected route in the debug log.  In particular for
    the connection [vpnMixed], with one IPv4 and one IPv6 route, the RuleSet
    has exactly one forward-from-device rule and one forward-to-device rule
    for that connection. *)
Theorem only_ipv4_routes_are_forwarded (d p : string) (vpns : list VPN)
  (delete : bool) :
  let sn := subnet p in
  let ra := ruleAction delete in
  let st := vpnLoop sn vpns (mkLoopState [] [] []) in
  let rs := ipTableRules d p vpns delete in
  groupOf ("fwd_input_" +++ d) rs
  = map (app ["iptables"; "-w"; xtableLockWait; ra; "fwd_input_" +++ d])
        (flat_map (fun vpn =>
                     flat_map (fun ip => match Net.To4 ip with
                                         | Some r => [vpnInputRule sn vpn r]
                                         | None => []
                                         end) (Routes vpn)) vpns)
    ++ forwardInputRules d sn ra []
  /\ groupOf ("fwd_output_" +++ d) rs
     = map (app ["iptables"; "-w"; xtableLockWait; ra; "fwd_output_" +++ d])
           (flat_map (fun vpn =>
                        flat_map (fun ip => match Net.To4 ip with
                                            | Some r => [vpnOutputRule sn vpn r]
                                            | None => []
                                            end) (Routes vpn)) vpns)
       ++ forwardOutputRules d sn ra []
  /\ List.length (groupOf ("fwd_input_" +++ d) rs) = ipv4RouteCount vpns + 7
  /\ List.length (groupOf ("fwd_output_" +++ d) rs) = ipv4RouteCount vpns + 7
  /\ rs = ipTableRules d p (map ipv4Only vpns) delete
  /\ forwardVPNInputRules st
     = flat_map (fun vpn =>
                   flat_map (fun ip => match Net.To4 ip with
                                       | Some r => [vpnInputRule sn vpn r]
                                       | None => []
                                       end) (Routes vpn)) vpns
  /\ forwardVPNOutputRules st
     = flat_map (fun vpn =>
                   flat_map (fun ip => match Net.To4 ip with
                                       | Some r => [vpnOutputRule sn vpn r]
                                       | None => []
                                       end) (Routes vpn)) vpns
  /\ snd (ipTableRulesLogged d p vpns delete [])
     = flat_map (fun vpn =>
                   flat_map (fun ip => match Net.To4 ip with
                                       | Some _ => []
                                       | None => [SkippingIPv6Route ip]
                                       end) (Routes vpn)) vpns
  /\ groupOf "fwd_input_tap3" (ipTableRules "tap3" "192.168.50" [vpnMixed] delete)
     = ["iptables"; "-w"; xtableLockWait; ra; "fwd_input_tap3";
        "-d"; "10.8.0.0"; "-o"; "tun0"; "-s"; "192.168.50.0/24"; "-j"; "ACCEPT"]
       :: forwardInputRules "tap3" "192.168.50.0/24" ra []
  /\ groupOf "fwd_output_tap3" (ipTableRules "tap3" "192.168.50" [vpnMixed] delete)
     = ["iptables"; "-w"; xtableLockWait; ra; "fwd_output_tap3";
        "-s"; "10.8.0.0"; "-i"; "tun0"; "-d"; "192.168.50.0/24";
        "-m"; "state"; "--state"; "RELATED,ESTABLISHED"; "-j"; "ACCEPT"]
       :: forwardOutputRules "tap3" "192.168.50.0/24" ra [].
Proof.
  cbv zeta.
  destruct (vpn_rows_per_route (subnet p) vpns) as [Hin Hout].
  destruct (vpn_rules_ipv4Only (subnet p) vpns) as [Hi4 Ho4].
  rewrite <- Hin, <- Hout.
  rewrite !groupOf_fwd_input, !groupOf_fwd_output.
  rewrite forwardInputRules_length, forwardOutputRules_length,
    vpnInputRulesOf_length, vpnOutputRulesOf_length.
  rewrite vpnLoop_fresh. cbn [forwardVPNInputRules forwardVPNOutputRules].
  split; [apply forwardInputRules_split|].
  split; [apply forwardOutputRules_split|].
  split; [reflexivity|]. split; [reflexivity|].
  split; [apply ipTableRules_vpn_rules; symmetry; assumption|].
  split; [reflexivity|]. split; [reflexivity|].
  split.
  - unfold ipTableRulesLogged, ruleSetFor. rewrite vpnLoop_fresh.
    cbn [snd debugLog app]. unfold diagnosticsOf. apply flat_map_ext.
    intros vpn. unfold skippedRoutes.
    induction (Routes vpn) as [|ip routes IH]; simpl; [reflexivity|].
    destruct (Net.To4 ip); simpl; now rewrite IH.
  - split.
    + etransitivity;
        [exact (groupOf_fwd_input "tap3" "192.168.50" [vpnMixed] delete)
        |reflexivity].
    + etransitivity;
        [exact (groupOf_fwd_output "tap3" "192.168.50" [vpnMixed] delete)
        |reflexivity].
Qed.

(** * The chains a RuleSet refers to *)

Lemma chainRefs_app (a b : list Command) :
  chainRefs (a ++ b) = chainRefs a ++ chainRefs b.
Proof. unfold chainRefs. apply flat_map_app. Qed.

Lemma chainRefs_known (d : string) (rs : list Command) :
  Forall (knownRefs d) rs ->
  Forall (fun c => In c builtinNames \/ In c (deviceChains d)) (chainRefs rs).
Proof.
  unfold chainRefs. induction 1 as [|cmd rs Hcmd _ IH]; simpl.
  - constructor.
  - apply Forall_app_intro; assumption.
Qed.

Ltac known_names :=
  repeat (apply Forall_cons;
          [solve [ left; cbn [In builtinNames]; auto 20
                 | right; cbn [In deviceChains]; auto 20 ] |]);
  apply Forall_nil.

Ltac known_rows :=
  repeat (apply Forall_cons; [unfold knownRefs; cbn; known_names |]);
  apply Forall_nil.

Lemma vpn_rows_knownRefs (d sn ra chain : string) (vpns : list VPN) :
  ra = "-A" \/ ra = "-D" ->
  In chain (deviceChains d) ->
  Forall (knownRefs d)
         (map (app ["iptables"; "-w"; xtableLockWait; ra; chain])
              (vpnInputRulesOf sn vpns))
  /\ Forall (knownRefs d)
            (map (app ["iptables"; "-w"; xtableLockWait; ra; chain])
                 (vpnOutputRulesOf sn vpns)).
Proof.
  intros Hra Hc. unfold vpnInputRulesOf, vpnOutputRulesOf.
  split; rewrite Forall_map; apply Forall_forall; intros row Hrow;
    apply in_vpn_rows in Hrow; destruct Hrow as (vpn & r & _ & _ & ->);
    unfold knownRefs, chainRefsOf;
    rewrite parse_rule_command by exact Hra; cbn;
    (apply Forall_cons; [right; exact Hc | known_names]).
Qed.

Lemma ruleset_knownRefs (d p : string) (vpns : list VPN) (delete : bool) :
  Forall (knownRefs d) (ipTableRules d p vpns delete).
Proof.
  assert (Hfi : In ("fwd_input_" +++ d) (deviceChains d))
    by (cbn [In deviceChains]; auto 10).
  assert (Hfo : In ("fwd_output_" +++ d) (deviceChains d))
    by (cbn [In deviceChains]; auto 10).
  unfold ipTableRules, ipTableRulesLogged.
  destruct delete;
    [rewrite ruleSetFor_uninstall | rewrite ruleSetFor_install];
    rewrite forwardInputRules_split, forwardOutputRules_split;
    split_groups;
    try (apply vpn_rows_knownRefs; auto);
    unfold natRules, chains, rules, inputRules, outputRules,
      forwardInputRules, forwardOutputRules, prefixCommands;
    cbn [fold_left app]; known_rows.
Qed.

Lemma device_chains_are_referenced (d p : string) (vpns : list VPN)
  (delete : bool) (c : string) :
  In c (deviceChains d) -> In c (chainRefs (ipTableRules d p vpns delete)).
Proof.
  intros Hc. rewrite ipTableRules_groups, groups_eq.
  assert (H : In c (chainRefs (chains d (chainAction delete))))
    by (destruct delete; exact Hc).
  destruct delete; cbn [rev app List.concat];
    rewrite !chainRefs_app, !in_app_iff; tauto.
Qed.

Lemma userChains_ruleset (d p : string) (vpns : list VPN) (delete : bool)
  (c : string) :
  In c (userChains (ipTableRules d p vpns delete)) <-> In c (deviceChains d).
Proof.
  unfold userChains. rewrite filter_In. split.
  - intros [Hin Hnb].
    pose proof (chainRefs_known d _ (ruleset_knownRefs d p vpns delete)) as Hk.
    destruct (proj1 (Forall_forall _ _) Hk c Hin) as [Hb | Hd]; [|exact Hd].
    exfalso. apply negb_true_iff in Hnb.
    assert (Hex : existsb (String.eqb c) builtinNames = true).
    { apply existsb_exists. exists c. split; [exact Hb | apply String.eqb_refl]. }
    congruence.
  - intros Hc. split; [now apply device_chains_are_referenced|].
    cbn [In deviceChains] in Hc.
    destruct Hc as [<- | [<- | [<- | [<- | []]]]]; reflexivity.
Qed.

(** ** C7: namespace isolation between two devices *)

(** C7, as stated: with the same other inputs for both runs, a VPN
    connection whose attachment is named tapB puts that name into the
    commands generated for tapA. *)
Lemma vpn_attachment_named_like_device :
  ~ ((forall c, In c (userChains (ipTableRules "tapA" "192.168.1" [vpnNamedTapB] false)) ->
                ~ In c (userChains (ipTableRules "tapB" "192.168.2" [vpnNamedTapB] false)))
     /\ Forall (fun cmd => mentions "tapB" cmd = false)
               (ipTableRules "tapA" "192.168.1" [vpnNamedTapB] false)
     /\ Forall (fun cmd => mentions "tapA" cmd = false)
               (ipTableRules "tapB" "192.168.2" [vpnNamedTapB] false)).
Proof.
  intros (_ & HA & _).
  assert (Hcmd : nth_error (ipTableRules "tapA" "192.168.1" [vpnNamedTapB] false) 21
                 = Some ["iptables"; "-w"; "3"; "-A"; "fwd_output_tapA";
                         "-s"; "10.8.0.0"; "-i"; "tapB"; "-d"; "192.168.1.0/24";
                         "-m"; "state"; "--state"; "RELATED,ESTABLISHED";
                         "-j"; "ACCEPT"]) by reflexivity.
  apply nth_error_In in Hcmd.
  pose proof (proj1 (Forall_forall _ _) HA _ Hcmd) as H.
  vm_compute in H. discriminate H.
Qed.

(** The same happens when a prefix contains the other device's name. *)
Lemma prefix_named_like_device :
  ~ Forall (fun cmd => mentions "tapB" cmd = false)
           (ipTableRules "tapA" "tapB" [] false).
Proof.
  intros HA.
  assert (Hcmd : nth_error (ipTableRules "tapA" "tapB" [] false) 0
                 = Some ["iptables"; "-w"; "3"; "-t"; "nat"; "-A"; "POSTROUTING";
                         "-o"; "eth0"; "-s"; "tapB.0/24"; "-j"; "MASQUERADE"])
    by reflexivity.
  apply nth_error_In in Hcmd.
  pose proof (proj1 (Forall_forall _ _) HA _ Hcmd) as H.
  vm_compute in H. discriminate H.
Qed.

(** C7, amended.  For the runs with device tapA and device tapB, any two
    prefixes and the same VPN connections and mode: the chains the two
    RuleSets refer to that are not built in (as the chain a command creates,
    destroys, appends to or deletes from, or as the argument of a [-j]) are
    the four chains of the respective device, and the two sets are disjoint,
    without any condition on the inputs; and no token of a command generated
    for one device contains the identifier of the other device, provided
    that the prefix of that run and the VPN attachment names do not contain
    that identifier. *)
Theorem namespace_isolation (pA pB : string) (vpns : list VPN) (delete : bool) :
  (forall c, In c (userChains (ipTableRules "tapA" pA vpns delete))
             <-> In c (deviceChains "tapA"))
  /\ (forall c, In c (userChains (ipTableRules "tapB" pB vpns delete))
                <-> In c (deviceChains "tapB"))
  /\ (forall c, In c (userChains (ipTableRules "tapA" pA vpns delete)) ->
                ~ In c (userChains (ipTableRules "tapB" pB vpns delete)))
  /\ (substringb "tapB" pA = false ->
      Forall (fun vpn => substringb "tapB" (DeviceName vpn) = false) vpns ->
      Forall (fun cmd => mentions "tapB" cmd = false)
             (ipTableRules "tapA" pA vpns delete))
  /\ (substringb "tapA" pB = false ->
      Forall (fun vpn => substringb "tapA" (DeviceName vpn) = false) vpns ->
      Forall (fun cmd => mentions "tapA" cmd = false)
             (ipTableRules "tapB" pB vpns delete)).
Proof.
  split; [intros c; apply userChains_ruleset|].
  split; [intros c; apply userChains_ruleset|].
  split.
  - intros c HA HB.
    apply userChains_ruleset in HA. apply userChains_ruleset in HB.
    revert HB. apply (deviceChains_disjoint "tapA" "tapB"); [discriminate | exact HA].
  - split; intros Hp Hv; unfold ipTableRules, ipTableRulesLogged.
    + destruct (subnet_gateway_clean "tapB" pA) as [Hs Hg]; auto.
      apply ruleSetFor_clean; auto.
    + destruct (subnet_gateway_clean "tapA" pB) as [Hs Hg]; auto.
      apply ruleSetFor_clean; auto.
Qed.

Lemma namespace_isolation_witness :
  (forall c, In c (userChains (ipTableRules "tapA" "192.168.1" [vpnMixed] false)) ->
             ~ In c (userChains (ipTableRules "tapB" "192.168.2" [vpnMixed] false)))
  /\ userChains (ipTableRules "tapA" "192.168.1" [vpnMixed] false)
     = ["input_tapA"; "output_tapA"; "fwd_input_tapA"; "fwd_output_tapA";
        "input_tapA"; "output_tapA"; "fwd_input_tapA"; "fwd_output_tapA";
        "input_tapA"; "input_tapA"; "input_tapA"; "input_tapA"; "input_tapA";
        "input_tapA"; "input_tapA";
        "output_tapA"; "output_tapA"; "output_tapA"; "output_tapA"; "output_tapA";
        "fwd_output_tapA"; "fwd_output_tapA"; "fwd_output_tapA"; "fwd_output_tapA";
        "fwd_output_tapA"; "fwd_output_tapA"; "fwd_output_tapA"; "fwd_output_tapA";
        "fwd_input_tapA"; "fwd_input_tapA"; "fwd_input_tapA"; "fwd_input_tapA";
        "fwd_input_tapA"; "fwd_input_tapA"; "fwd_input_tapA"; "fwd_input_tapA"]
  /\ Forall (fun cmd => mentions "tapB" cmd = false)
            (ipTableRules "tapA" "192.168.1" [vpnMixed] false)
  /\ Forall (fun cmd => mentions "tapA" cmd = false)
            (ipTableRules "tapB" "192.168.2" [vpnMixed] false).
Proof.
  destruct (namespace_isolation "192.168.1" "192.168.2" [vpnMixed] false)
    as (_ & _ & Hd & HA & HB).
  split; [exact Hd|]. split; [reflexivity|].
  split; [apply HA | apply HB]; try reflexivity; repeat constructor.
Defined.
